(** * Account-balance consistency and the default-account rule

    A shallow embedding of the server actions of the finance dashboard:

    - [src/actions/account.js]: [serializeDecimal],
      [getAccountWithTransactions], [bulkDeleteTransactions],
      [updateDefaultAccount];
    - the dashboard actions file: [serializeTransaction], [getUserAccounts],
      [createAccount], [getDashboardData];
    - the dashboard page: the choice of the default account;
    - [src/middleware.js]: the protected routes and the redirect.

    The actions are asynchronous JavaScript over a Prisma client.  Every
    [await] is sequential, so an action is a state transformer over a
    [World] (the database, the session, the console, ...) that either
    returns a value or throws; [try]/[catch] and [db.$transaction] are
    combinators on such transformers. *)

From Stdlib Require Import ZArith List String Ascii Bool Lia DecimalString.
Import ListNotations.
Local Open Scope string_scope.
Local Open Scope Z_scope.

(** ** Decimal values

    Prisma hands out [Decimal] objects (decimal.js) for the [balance] and
    [amount] columns.  A decimal is an integer coefficient and a number of
    fractional places: [coef * 10^-places].  Addition is exact. *)

Record Decimal : Type := mkDecimal { coef : Z; places : nat }.

Module Dec.

Definition zero : Decimal := mkDecimal 0 0.

(** [cents n] is [n] hundredths. *)
Definition cents (n : Z) : Decimal := mkDecimal n 2.

Definition pow10 (k : nat) : Z := 10 ^ Z.of_nat k.

(** The coefficient of [d] when written with [k >= places d] places. *)
Definition rescale (k : nat) (d : Decimal) : Z :=
  coef d * pow10 (k - places d).

Definition add (a b : Decimal) : Decimal :=
  let k := Nat.max (places a) (places b) in
  mkDecimal (rescale k a + rescale k b) k.

Definition opp (a : Decimal) : Decimal := mkDecimal (- coef a) (places a).

Definition is_zero (a : Decimal) : bool := coef a =? 0.

(** Numeric equality (1.50 and 1.5 are the same number). *)
Definition eqv (a b : Decimal) : Prop :=
  coef a * pow10 (places b) = coef b * pow10 (places a).

(** *** Printing: [Decimal.prototype.valueOf] and [Number::toString]

    Both print positional notation without trailing fractional zeros
    ("30", "-20", "0.5"); exponent notation, which both switch to at
    1e21 and below 1e-6, is outside the model. *)

Definition digits (n : Z) : string :=
  NilZero.string_of_uint (N.to_uint (Z.to_N n)).

(** The [k] low digits of [r], most significant first. *)
Fixpoint frac_digits (k : nat) (r : Z) : string :=
  match k with
  | O => ""
  | S k' => digits ((r / pow10 k') mod 10) ++ frac_digits k' r
  end.

Fixpoint strip_zeros (s : string) : string :=
  match s with
  | EmptyString => EmptyString
  | String c s' =>
      match strip_zeros s' with
      | EmptyString => if Ascii.eqb c "0"%char then EmptyString
                       else String c EmptyString
      | t => String c t
      end
  end.

Definition to_string (d : Decimal) : string :=
  let a := Z.abs (coef d) in
  let f := strip_zeros (frac_digits (places d) (a mod pow10 (places d))) in
  (if coef d <? 0 then "-" else "") ++
  digits (a / pow10 (places d)) ++
  (match f with EmptyString => "" | _ => "." ++ f end).

(** *** Parsing: what the store accepts as a decimal written in a string

    An optional minus sign, digits, and optionally a point followed by
    digits.  Anything else is rejected. *)

Fixpoint split_point (s : string) : string * option string :=
  match s with
  | EmptyString => (EmptyString, None)
  | String c s' =>
      if Ascii.eqb c "."%char then (EmptyString, Some s')
      else let (i, f) := split_point s' in (String c i, f)
  end.

Definition parse_unsigned (s : string) : option Decimal :=
  let (i, f) := split_point s in
  match NilZero.uint_of_string i with
  | None => None
  | Some ui =>
      match f with
      | None => Some (mkDecimal (Z.of_uint ui) 0)
      | Some fs =>
          match NilZero.uint_of_string fs with
          | None => None
          | Some uf =>
              let k := String.length fs in
              Some (mkDecimal (Z.of_uint ui * pow10 k + Z.of_uint uf) k)
          end
      end
  end.

Definition parse (s : string) : option Decimal :=
  match s with
  | String "-" s' => option_map opp (parse_unsigned s')
  | _ => parse_unsigned s
  end.

End Dec.

(** ** JavaScript values of the amount arithmetic

    Three kinds of value occur where amounts are combined: a [Decimal]
    object, a primitive number and a primitive string.  A JavaScript
    number is an IEEE double: a finite one, an infinity or NaN.  A finite
    number is an exact decimal here, so every rounding that doubles add
    is left out of the model: what is said below of a number's value
    holds where the doubles are exact. *)

Inductive JsValue : Type :=
| JNum (n : Decimal)
| JStr (s : string)
| JDec (d : Decimal)
| JInfinity (negative : bool)
| JNaN.

(** [ToPrimitive]: decimal.js defines [valueOf] to return the decimal's
    string, and has no [Symbol.toPrimitive]. *)
Definition to_primitive (v : JsValue) : JsValue :=
  match v with
  | JDec d => JStr (Dec.to_string d)
  | _ => v
  end.

(** [ToString] of a primitive. *)
Definition js_to_string (v : JsValue) : string :=
  match v with
  | JNum n => Dec.to_string n
  | JStr s => s
  | JDec d => Dec.to_string d
  | JInfinity negative => if negative then "-Infinity" else "Infinity"
  | JNaN => "NaN"
  end.

(** The sum of two numbers. *)
Definition number_add (x y : JsValue) : JsValue :=
  match x, y with
  | JNum a, JNum b => JNum (Dec.add a b)
  | JInfinity s, JInfinity s' => if Bool.eqb s s' then JInfinity s else JNaN
  | JInfinity s, JNum _ => JInfinity s
  | JNum _, JInfinity s => JInfinity s
  | _, _ => JNaN
  end.

(** Binary [+]: both operands go through [ToPrimitive]; if either is then
    a string the result is the concatenation, otherwise the numeric sum. *)
Definition js_add (a b : JsValue) : JsValue :=
  match to_primitive a, to_primitive b with
  | JNum x, JNum y => JNum (Dec.add x y)
  | (JInfinity _ | JNaN) as x, (JInfinity _ | JNaN | JNum _) as y =>
      number_add x y
  | JNum _ as x, (JInfinity _ | JNaN) as y => number_add x y
  | pa, pb => JStr (js_to_string pa ++ js_to_string pb)
  end.

(** Unary [-] on a [Decimal] object, the only operand the actions negate:
    [ToNumber] of the decimal's numeral, negated. *)
Definition js_neg (d : Decimal) : JsValue := JNum (Dec.opp d).

(** Truthiness: 0, NaN and the empty string are falsy, every object is
    truthy. *)
Definition truthy (v : JsValue) : bool :=
  match v with
  | JNum n => negb (Dec.is_zero n)
  | JStr s => negb (String.eqb s "")
  | JDec _ => true
  | JInfinity _ => true
  | JNaN => false
  end.

(** [isNaN] of a number. *)
Definition isNaN (v : JsValue) : bool :=
  match v with JNaN => true | _ => false end.

(** [x || y] where [x] may be [undefined]. *)
Definition js_or (x : option JsValue) (y : JsValue) : JsValue :=
  match x with
  | Some v => if truthy v then v else y
  | None => y
  end.

Definition is_decimal (v : JsValue) : bool :=
  match v with JDec _ => true | _ => false end.

(** ** The store

    Rows as Prisma returns them.  Ids are opaque strings.  The tables are
    lists in insertion order; [createdAt] is the position in the list. *)

Definition Id := string.

Inductive AccountType : Type := CURRENT | SAVINGS.
Inductive TransactionType : Type := INCOME | EXPENSE.

Record User : Type := mkUser {
  user_id : Id;
  user_clerkUserId : string
}.

Record Account : Type := mkAccount {
  account_id : Id;
  account_userId : Id;
  account_name : string;
  account_type : AccountType;
  account_balance : Decimal;
  account_isDefault : bool
}.

Record Transaction : Type := mkTransaction {
  transaction_id : Id;
  transaction_userId : Id;
  transaction_accountId : Id;
  transaction_type : TransactionType;
  transaction_amount : Decimal
}.

Record Db : Type := mkDb {
  users : list User;
  accounts : list Account;
  transactions : list Transaction
}.

(** Rate-limiter verdict returned by [aj.protect]. *)
Inductive Decision : Type := Allowed | DeniedRateLimit | DeniedOther.

(** What an action runs against: the session [auth()] reads, the
    limiter's verdict, the database, one flag per storage call still to
    come ([true]: that call rejects with a storage failure; past the end
    of the list no call fails), the id generator of the [account] table,
    the console and the paths already passed to [revalidatePath]. *)
Record World : Type := mkWorld {
  session : option string;
  shield : Decision;
  db : Db;
  faults : list bool;
  uuid : nat -> Id;
  console : list string;
  revalidated : list string
}.

Definition set_db (d : Db) (w : World) : World :=
  mkWorld (session w) (shield w) d (faults w) (uuid w) (console w)
          (revalidated w).

Definition set_faults (f : list bool) (w : World) : World :=
  mkWorld (session w) (shield w) (db w) f (uuid w) (console w)
          (revalidated w).

(** ** Actions: state and exceptions *)

Inductive Completion (A : Type) : Type :=
| Normal (value : A)
| Throw (message : string).
Arguments Normal {A} value.
Arguments Throw {A} message.

Definition Action (A : Type) : Type := World -> Completion A * World.

Definition ret {A} (a : A) : Action A := fun w => (Normal a, w).

Definition throw {A} (message : string) : Action A :=
  fun w => (Throw message, w).

Definition bind {A B} (m : Action A) (k : A -> Action B) : Action B :=
  fun w =>
    match m w with
    | (Normal a, w') => k a w'
    | (Throw e, w') => (Throw e, w')
    end.

Declare Scope action_scope.
Delimit Scope action_scope with action.
Notation "x <- m ;; k" := (bind m (fun x => k))
  (at level 100, m at next level, right associativity) : action_scope.
Notation "m ;;; k" := (bind m (fun _ => k))
  (at level 100, right associativity) : action_scope.
Local Open Scope action_scope.

(** [try { body } catch (error) { handler(error.message) }].  What [body]
    wrote before it threw stays written. *)
Definition try_catch {A} (body : Action A) (handler : string -> Action A)
  : Action A :=
  fun w =>
    match body w with
    | (Normal a, w') => (Normal a, w')
    | (Throw e, w') => handler e w'
    end.

(** [db.$transaction(async (tx) => body)]: if [body] throws, the database
    is put back as it was when the transaction began and the error goes
    on to the caller. *)
Definition dollar_transaction {A} (body : Action A) : Action A :=
  fun w =>
    match body w with
    | (Normal a, w') => (Normal a, w')
    | (Throw e, w') => (Throw e, set_db (db w) w')
    end.

Fixpoint for_of {A} (l : list A) (body : A -> Action unit) : Action unit :=
  match l with
  | [] => ret tt
  | x :: l' => body x ;;; for_of l' body
  end.

(** One call to the store: it consumes one fault flag, and runs only if
    the flag is clear.  The messages of the errors the store raises, here
    and below, stand for Prisma's. *)
Definition storage {A} (op : Db -> Completion A * Db) : Action A :=
  fun w =>
    match faults w with
    | true :: f => (Throw "storage failure", set_faults f w)
    | false :: f =>
        let (r, d) := op (db w) in (r, set_db d (set_faults f w))
    | [] => let (r, d) := op (db w) in (r, set_db d w)
    end.

Definition auth : Action (option string) := fun w => (Normal (session w), w).

Definition protect : Action Decision := fun w => (Normal (shield w), w).

Definition console_error (message : string) : Action unit :=
  fun w => (Normal tt,
            mkWorld (session w) (shield w) (db w) (faults w) (uuid w)
                    (console w ++ [message]) (revalidated w)).

Definition revalidatePath (path : string) : Action unit :=
  fun w => (Normal tt,
            mkWorld (session w) (shield w) (db w) (faults w) (uuid w)
                    (console w) (revalidated w ++ [path])).

(** [!userId]: [null] and the empty string are falsy. *)
Definition not_userId (u : option string) : bool :=
  match u with
  | None => true
  | Some s => String.eqb s ""
  end.

(** ** Prisma queries used by the actions *)

Definition id_in (ids : list Id) (i : Id) : bool :=
  existsb (String.eqb i) ids.

(** [db.user.findUnique({ where: { clerkUserId } })] *)
Definition user_findUnique (clerkUserId : string) : Action (option User) :=
  storage (fun d =>
    (Normal (find (fun u => String.eqb (user_clerkUserId u) clerkUserId)
                  (users d)), d)).

(** The [where] clause [{ id: { in: ids }, userId }] on transactions. *)
Definition transaction_where (ids : list Id) (userId : Id) (t : Transaction)
  : bool :=
  id_in ids (transaction_id t) && String.eqb (transaction_userId t) userId.

(** [db.transaction.findMany({ where: { id: { in: ids }, userId } })] *)
Definition transaction_findMany (ids : list Id) (userId : Id)
  : Action (list Transaction) :=
  storage (fun d =>
    (Normal (filter (transaction_where ids userId) (transactions d)), d)).

(** [tx.transaction.deleteMany({ where: { id: { in: ids }, userId } })] *)
Definition transaction_deleteMany (ids : list Id) (userId : Id)
  : Action unit :=
  storage (fun d =>
    (Normal tt,
     mkDb (users d) (accounts d)
          (filter (fun t => negb (transaction_where ids userId t))
                  (transactions d)))).

(** The value the store reads from an input given for a Decimal column:
    a finite number, a Decimal object, or a string holding a numeral. *)
Definition decimal_input (v : JsValue) : option Decimal :=
  match v with
  | JNum n => Some n
  | JDec d => Some d
  | JStr s => Dec.parse s
  | JInfinity _ => None
  | JNaN => None
  end.

(** Rewrite the first row that satisfies [p]. *)
Fixpoint update_first {A} (p : A -> bool) (f : A -> A) (l : list A) : list A :=
  match l with
  | [] => []
  | x :: l' => if p x then f x :: l' else x :: update_first p f l'
  end.

Definition set_balance (b : Decimal) (a : Account) : Account :=
  mkAccount (account_id a) (account_userId a) (account_name a)
            (account_type a) b (account_isDefault a).

Definition set_isDefault (b : bool) (a : Account) : Account :=
  mkAccount (account_id a) (account_userId a) (account_name a)
            (account_type a) (account_balance a) b.

(** [account.update({ where, data })] on the unique row matching [p]:
    rejects when there is no such row. *)
Definition account_update_row (p : Account -> bool) (f : Account -> Account)
  (d : Db) : Completion Account * Db :=
  match find p (accounts d) with
  | None => (Throw "Record to update not found.", d)
  | Some a =>
      (Normal (f a),
       mkDb (users d) (update_first p f (accounts d)) (transactions d))
  end.

(** [tx.account.update({ where: { id }, data: { balance: { increment } } })] *)
Definition account_increment_balance (id : Id) (increment : JsValue)
  : Action Account :=
  storage (fun d =>
    match decimal_input increment with
    | None => (Throw "Invalid value provided. Expected Decimal.", d)
    | Some delta =>
        account_update_row
          (fun a => String.eqb (account_id a) id)
          (fun a => set_balance (Dec.add (account_balance a) delta) a) d
    end).

(** The [where] clauses [{ userId, isDefault: true }] and [{ id, userId }]. *)
Definition is_default_of (userId : Id) (a : Account) : bool :=
  String.eqb (account_userId a) userId && account_isDefault a.

Definition is_account_of (id userId : Id) (a : Account) : bool :=
  String.eqb (account_id a) id && String.eqb (account_userId a) userId.

(** [db.account.updateMany({ where: { userId, isDefault: true },
                            data: { isDefault: false } })] *)
Definition account_unset_defaults (userId : Id) : Action unit :=
  storage (fun d =>
    (Normal tt,
     mkDb (users d)
          (map (fun a => if is_default_of userId a
                         then set_isDefault false a else a)
               (accounts d))
          (transactions d))).

(** [db.account.update({ where: { id, userId }, data: { isDefault: true } })] *)
Definition account_set_default (id userId : Id) : Action Account :=
  storage (account_update_row (is_account_of id userId) (set_isDefault true)).

(** [db.account.findMany({ where: { userId } })] *)
Definition account_findMany (userId : Id) : Action (list Account) :=
  storage (fun d =>
    (Normal (filter (fun a => String.eqb (account_userId a) userId)
                    (accounts d)), d)).

(** [db.account.findMany({ where: { userId }, orderBy: { createdAt: "desc" },
                          include: { _count: { select: { transactions } } } })] *)
Definition account_findMany_with_count (userId : Id)
  : Action (list (Account * nat)) :=
  storage (fun d =>
    (Normal
       (map (fun a =>
               (a, List.length
                     (filter (fun t => String.eqb (transaction_accountId t)
                                                  (account_id a))
                             (transactions d))))
            (rev (filter (fun a => String.eqb (account_userId a) userId)
                         (accounts d)))), d)).

Definition account_type_of_string (s : string) : option AccountType :=
  if String.eqb s "CURRENT" then Some CURRENT
  else if String.eqb s "SAVINGS" then Some SAVINGS
  else None.

(** Modelled from the spec: the Prisma schema is not part of the sources;
    an account created without an [isDefault] value gets the column
    default, which the spec's "requested flag, may be absent/false" takes
    to be [false]. *)
Definition isDefault_column_default : bool := false.

(** [db.account.create({ data })]: the store checks the enum and the
    decimal, draws the row's id and appends the row. *)
Definition account_create (name type : string) (balance : JsValue)
  (userId : Id) (isDefault : option bool) : Action Account :=
  fun w =>
    storage (fun d =>
      match account_type_of_string type, decimal_input balance with
      | Some ty, Some b =>
          let id := uuid w (List.length (accounts d)) in
          if existsb (fun a => String.eqb (account_id a) id) (accounts d)
          then (Throw "Unique constraint failed on the fields: (`id`)", d)
          else
            let row :=
              mkAccount id userId name ty b
                (match isDefault with
                 | Some flag => flag
                 | None => isDefault_column_default
                 end) in
            (Normal row, mkDb (users d) (accounts d ++ [row]) (transactions d))
      | _, _ => (Throw "Invalid value provided.", d)
      end) w.

(** ** [parseFloat]

    [parseFloat] drops leading white space and reads the longest prefix
    that is a decimal literal: an optional sign, then "Infinity", or
    digits with at most one point and an optional exponent part.  With
    no such prefix the result is NaN.  Strings are UTF-8.  A finite
    result is the exact value of the literal, up to the size from which
    the nearest double is an infinity; the rounding of the other values
    to doubles is not modelled. *)

(** Tab, line feed, vertical tab, form feed, carriage return, space. *)
Definition is_white_space_1 (c : ascii) : bool :=
  let n := nat_of_ascii c in
  ((9 <=? n)%nat && (n <=? 13)%nat) || (n =? 32)%nat.

(** U+00A0. *)
Definition is_white_space_2 (a b : ascii) : bool :=
  ((nat_of_ascii a =? 194) && (nat_of_ascii b =? 160))%nat.

(** U+1680, U+2000 to U+200A, U+2028, U+2029, U+202F, U+205F, U+3000 and
    U+FEFF. *)
Definition is_white_space_3 (a b c : ascii) : bool :=
  let x := nat_of_ascii a in
  let y := nat_of_ascii b in
  let z := nat_of_ascii c in
  ((x =? 225) && (y =? 154) && (z =? 128))%nat ||
  ((x =? 226) && (y =? 128) &&
   (((128 <=? z) && (z <=? 138)) || (z =? 168) || (z =? 169) || (z =? 175)))%nat ||
  ((x =? 226) && (y =? 129) && (z =? 159))%nat ||
  ((x =? 227) && (y =? 128) && (z =? 128))%nat ||
  ((x =? 239) && (y =? 187) && (z =? 191))%nat.

Fixpoint skip_white_space (s : string) : string :=
  match s with
  | EmptyString => s
  | String a s1 =>
      if is_white_space_1 a then skip_white_space s1 else
      match s1 with
      | EmptyString => s
      | String b s2 =>
          if is_white_space_2 a b then skip_white_space s2 else
          match s2 with
          | EmptyString => s
          | String c s3 =>
              if is_white_space_3 a b c then skip_white_space s3 else s
          end
      end
  end.

Fixpoint strip_prefix (p s : string) : option string :=
  match p, s with
  | EmptyString, _ => Some s
  | String a p', String b s' =>
      if Ascii.eqb a b then strip_prefix p' s' else None
  | String _ _, EmptyString => None
  end.

Definition is_digit (c : ascii) : bool :=
  let n := nat_of_ascii c in (48 <=? n)%nat && (n <=? 57)%nat.

Fixpoint take_digits (s : string) : string * string :=
  match s with
  | EmptyString => (EmptyString, EmptyString)
  | String c s' =>
      if is_digit c
      then let (ds, r) := take_digits s' in (String c ds, r)
      else (EmptyString, s)
  end.

Definition digits_value (ds : string) : Z :=
  match NilEmpty.uint_of_string ds with
  | Some u => Z.of_uint u
  | None => 0
  end.

(** An optional sign at the head of [s], and the rest. *)
Definition take_sign (s : string) : bool * string :=
  match s with
  | String "-" s' => (true, s')
  | String "+" s' => (false, s')
  | _ => (false, s)
  end.

(** The exponent of the exponent part at the head of [s]; 0 when [s]
    does not begin with a complete one ("e" or "E", an optional sign, at
    least one digit). *)
Definition exponent_part (s : string) : Z :=
  match s with
  | EmptyString => 0
  | String c r =>
      if Ascii.eqb c "e" || Ascii.eqb c "E" then
        let (negative, r) := take_sign r in
        match fst (take_digits r) with
        | EmptyString => 0
        | ds => if negative then - digits_value ds else digits_value ds
        end
      else 0
  end.

(** From [2^1024 - 2^970] on, halfway between the largest double and
    [2^1024], the nearest double is an infinity. *)
Definition overflow_bound : Z := 2 ^ 1024 - 2 ^ 970.

(** The number [m * 10^x] with the sign given, [m] not negative. *)
Definition number_of (negative : bool) (m x : Z) : JsValue :=
  if (if 0 <=? x then overflow_bound <=? m * 10 ^ x
      else overflow_bound * 10 ^ (- x) <=? m)
  then JInfinity negative
  else
    let m := if negative then - m else m in
    if 0 <=? x then JNum (mkDecimal (m * 10 ^ x) 0)
    else JNum (mkDecimal m (Z.to_nat (- x))).

Definition parseFloat (input : string) : JsValue :=
  let (negative, s) := take_sign (skip_white_space input) in
  match strip_prefix "Infinity" s with
  | Some _ => JInfinity negative
  | None =>
      let (ip, r) := take_digits s in
      let (fp, r) :=
        match r with
        | String "." r' => take_digits r'
        | _ => (EmptyString, r)
        end in
      match ip, fp with
      | EmptyString, EmptyString => JNaN
      | _, _ =>
          let k := String.length fp in
          number_of negative
            (digits_value ip * Dec.pow10 k + digits_value fp)
            (exponent_part r - Z.of_nat k)
      end
  end.

(** ** Serialisation for the client *)

Record SerializedAccount : Type := mkSerializedAccount {
  s_id : Id;
  s_userId : Id;
  s_name : string;
  s_type : AccountType;
  s_balance : JsValue;
  s_isDefault : bool
}.

(** [Decimal.prototype.toNumber] *)
Definition toNumber (d : Decimal) : JsValue := JNum d.

(** [serializeDecimal] and [serializeTransaction] (same body, one per
    file) on an account row: [obj.balance] is a Decimal object, hence
    truthy, and is replaced by its number; there is no [amount]. *)
Definition serializeDecimal (obj : Account) : SerializedAccount :=
  mkSerializedAccount (account_id obj) (account_userId obj)
    (account_name obj) (account_type obj)
    (if truthy (JDec (account_balance obj))
     then toNumber (account_balance obj)
     else JDec (account_balance obj))
    (account_isDefault obj).

Definition serializeTransaction := serializeDecimal.

(** ** [src/actions/account.js] *)

(** The result object of the actions that report instead of throwing:
    [{ success: true, data }] or [{ success: false, error }]. *)
Inductive Payload (A : Type) : Type :=
| Success (data : A)
| Failure (error : string).
Arguments Success {A} data.
Arguments Failure {A} error.

(** The accumulator of the [reduce]: a plain object keyed by account id.
    [Object.entries] lists the keys in the order they were first set
    (account ids are not array indices). *)
Definition JsObject : Type := list (Id * JsValue).

Fixpoint obj_get (o : JsObject) (k : Id) : option JsValue :=
  match o with
  | [] => None
  | (k', v) :: o' => if String.eqb k' k then Some v else obj_get o' k
  end.

Fixpoint obj_set (o : JsObject) (k : Id) (v : JsValue) : JsObject :=
  match o with
  | [] => [(k, v)]
  | (k', v') :: o' =>
      if String.eqb k' k then (k', v) :: o' else (k', v') :: obj_set o' k v
  end.

(** [transaction.type === "EXPENSE" ? transaction.amount : -transaction.amount] *)
Definition change (transaction : Transaction) : JsValue :=
  match transaction_type transaction with
  | EXPENSE => JDec (transaction_amount transaction)
  | INCOME => js_neg (transaction_amount transaction)
  end.

(** The reducer:
    [acc[transaction.accountId] = (acc[transaction.accountId] || 0) + change] *)
Definition accumulate (acc : JsObject) (transaction : Transaction) : JsObject :=
  obj_set acc (transaction_accountId transaction)
    (js_add (js_or (obj_get acc (transaction_accountId transaction))
                   (JNum Dec.zero))
            (change transaction)).

Definition accountBalanceChanges (transactions : list Transaction) : JsObject :=
  fold_left accumulate transactions [].

Definition bulkDeleteTransactions (transactionIds : list Id)
  : Action (Payload unit) :=
  try_catch
    (userId <- auth ;;
     if not_userId userId then throw "Unauthorized" else
     user <- user_findUnique (match userId with Some u => u | None => "" end) ;;
     match user with
     | None => throw "User not found"
     | Some user =>
         transactions <- transaction_findMany transactionIds (user_id user) ;;
         let changes := accountBalanceChanges transactions in
         dollar_transaction
           (transaction_deleteMany transactionIds (user_id user) ;;;
            for_of changes
              (fun '(accountId, balanceChange) =>
                 account_increment_balance accountId balanceChange ;;;
                 ret tt)) ;;;
         revalidatePath "/dashboard" ;;;
         revalidatePath "/account/[id]" ;;;
         ret (Success tt)
     end)
    (fun error => ret (Failure error)).

Definition updateDefaultAccount (accountId : Id)
  : Action (Payload SerializedAccount) :=
  try_catch
    (userId <- auth ;;
     if not_userId userId then throw "Unauthorized" else
     user <- user_findUnique (match userId with Some u => u | None => "" end) ;;
     match user with
     | None => throw "User not found"
     | Some user =>
         account_unset_defaults (user_id user) ;;;
         account <- account_set_default accountId (user_id user) ;;
         revalidatePath "/dashboard" ;;;
         ret (Success (serializeDecimal account))
     end)
    (fun error => ret (Failure error)).

(** ** The dashboard actions *)

(** Returns [Some] list, or [None] for [undefined]. *)
Definition getUserAccounts
  : Action (option (list (SerializedAccount * nat))) :=
  userId <- auth ;;
  if not_userId userId then throw "Unauthorized" else
  user <- user_findUnique (match userId with Some u => u | None => "" end) ;;
  match user with
  | None => throw "User not found"
  | Some user =>
      try_catch
        (accounts <- account_findMany_with_count (user_id user) ;;
         let serializedAccounts :=
           map (fun '(a, n) => (serializeTransaction a, n)) accounts in
         ret (Some serializedAccounts))
        (fun error => console_error error ;;; ret None)
  end.

(** The fields of [data] that [createAccount] and the store read. *)
Record AccountData : Type := mkAccountData {
  data_name : string;
  data_type : string;
  data_balance : string;
  data_isDefault : option bool
}.

(** Truthiness of [data.isDefault] ([undefined] is falsy). *)
Definition flag_truthy (f : option bool) : bool :=
  match f with Some true => true | _ => false end.

Definition createAccount (data : AccountData)
  : Action (Payload SerializedAccount) :=
  try_catch
    (userId <- auth ;;
     if not_userId userId then throw "Unauthorized" else
     decision <- protect ;;
     match decision with
     | DeniedRateLimit =>
         console_error "RATE_LIMIT_EXCEEDED" ;;;
         throw "Too many requests. Please try again later."
     | DeniedOther => throw "Request blocked"
     | Allowed =>
         user <- user_findUnique
                   (match userId with Some u => u | None => "" end) ;;
         match user with
         | None => throw "User not found"
         | Some user =>
             let balanceFloat := parseFloat (data_balance data) in
             if isNaN balanceFloat then throw "Invalid balance amount" else
             existingAccounts <- account_findMany (user_id user) ;;
             let shouldBeDefault :=
               match existingAccounts with
               | [] => Some true
               | _ => data_isDefault data
               end in
             (if flag_truthy shouldBeDefault
              then account_unset_defaults (user_id user)
              else ret tt) ;;;
             account <- account_create (data_name data) (data_type data)
                          balanceFloat (user_id user)
                          shouldBeDefault ;;
             let serializedAccount := serializeTransaction account in
             revalidatePath "/dashboard" ;;;
             ret (Success serializedAccount)
         end
     end)
    (fun error => throw error).

(** ** Vocabulary of the properties *)

(** The user record the actions resolve for the current session. *)
Definition caller (w : World) : option User :=
  if not_userId (session w) then None
  else find (fun u => String.eqb (user_clerkUserId u)
                        (match session w with Some u => u | None => "" end))
            (users (db w)).

(** The accounts of [userId] that carry the default flag. *)
Definition defaults_of (userId : Id) (d : Db) : list Account :=
  filter (is_default_of userId) (accounts d).

(** Invariant I1: every user who owns an account has exactly one default
    account. *)
Definition single_default (d : Db) : Prop :=
  forall a, In a (accounts d) ->
            List.length (defaults_of (account_userId a) d) = 1%nat.

Definition find_account (id : Id) (d : Db) : option Account :=
  find (fun a => String.eqb (account_id a) id) (accounts d).

Definition balance_of (id : Id) (d : Db) : option Decimal :=
  option_map account_balance (find_account id d).

(** The reversal delta of a transaction as a decimal: [+amount] for an
    expense, [-amount] for an income. *)
Definition reversal_delta (t : Transaction) : Decimal :=
  match transaction_type t with
  | EXPENSE => transaction_amount t
  | INCOME => Dec.opp (transaction_amount t)
  end.

(** The world with every transaction of other users taken out of the
    database. *)
Definition owned_transaction (userId : Id) (t : Transaction) : bool :=
  String.eqb (transaction_userId t) userId.

Definition without_foreign (w : World) : World :=
  match caller w with
  | None => w
  | Some u =>
      set_db (mkDb (users (db w)) (accounts (db w))
                   (filter (owned_transaction (user_id u))
                           (transactions (db w)))) w
  end.

(** The flag a request asks for; an absent flag asks for the column
    default. *)
Definition requested_flag (f : option bool) : bool :=
  match f with
  | Some flag => flag
  | None => isDefault_column_default
  end.

(** The claim that [getUserAccounts] raises only for an unauthenticated
    caller or a missing user record. *)
Definition raises_only_without_user : Prop :=
  forall w e,
    fst (getUserAccounts w) = Throw e ->
    not_userId (session w) = true \/ caller w = None.

(** The failure of the apply step, told from its parts: the error of
    the deletion if the deletion fails, else the error of the first
    balance increment that fails when the increments of [changes] are
    made one after another; [None] if no part fails. *)
Fixpoint first_failed_increment (changes : JsObject) (w : World)
  : option string :=
  match changes with
  | [] => None
  | (accountId, balanceChange) :: rest =>
      match account_increment_balance accountId balanceChange w with
      | (Throw e, _) => Some e
      | (Normal _, w') => first_failed_increment rest w'
      end
  end.

Definition apply_step_failure (ids : list Id) (userId : Id)
  (changes : JsObject) (w : World) : option string :=
  match transaction_deleteMany ids userId w with
  | (Throw e, _) => Some e
  | (Normal _, w') => first_failed_increment changes w'
  end.

(** The claim that a request none of whose ids resolves is reported as a
    failure. *)
Definition unresolvable_is_failure : Prop :=
  forall ids w u,
    ids <> [] ->
    caller w = Some u ->
    filter (transaction_where ids (user_id u)) (transactions (db w)) = [] ->
    exists e, fst (bulkDeleteTransactions ids w) = Normal (Failure e).

(** No value of the object is a Decimal. *)
Definition no_decimal_entry (o : JsObject) : Prop :=
  forall id x, obj_get o id = Some x -> is_decimal x = false.

(** Two worlds that differ at most in their transaction tables. *)
Definition agree_but_transactions (w1 w2 : World) : Prop :=
  session w1 = session w2 /\ shield w1 = shield w2 /\
  faults w1 = faults w2 /\ uuid w1 = uuid w2 /\
  console w1 = console w2 /\ revalidated w1 = revalidated w2 /\
  users (db w1) = users (db w2) /\ accounts (db w1) = accounts (db w2).

(** Two worlds that differ at most in the transactions of users other
    than [userId]. *)
Definition agree_for (userId : Id) (w1 w2 : World) : Prop :=
  agree_but_transactions w1 w2 /\
  filter (owned_transaction userId) (transactions (db w1))
    = filter (owned_transaction userId) (transactions (db w2)).

(** Run from [w1] and from [w2], the two actions complete alike and end
    in related worlds. *)
Definition sim_at {A} (R : World -> World -> Prop) (m1 m2 : Action A)
  (w1 w2 : World) : Prop :=
  fst (m1 w1) = fst (m2 w2) /\ R (snd (m1 w1)) (snd (m2 w2)).

(** A request to one of the two actions that write the default flag,
    with the environment it runs in. *)
Inductive Call : Type :=
| CallCreateAccount (data : AccountData)
| CallUpdateDefaultAccount (accountId : Id).

Record Request : Type := mkRequest {
  request_session : option string;
  request_shield : Decision;
  request_faults : list bool;
  request_uuid : nat -> Id;
  request_call : Call
}.

Definition request_world (r : Request) (d : Db) : World :=
  mkWorld (request_session r) (request_shield r) d (request_faults r)
          (request_uuid r) [] [].

Definition succeeded {A} (c : Completion (Payload A)) : bool :=
  match c with
  | Normal (Success _) => true
  | _ => false
  end.

(** Serve one request: whether it succeeded, and the database after it. *)
Definition serve (r : Request) (d : Db) : bool * Db :=
  match request_call r with
  | CallCreateAccount data =>
      let (c, w) := createAccount data (request_world r d) in
      (succeeded c, db w)
  | CallUpdateDefaultAccount accountId =>
      let (c, w) := updateDefaultAccount accountId (request_world r d) in
      (succeeded c, db w)
  end.

(** Serve the requests in order: whether all succeeded, and the final
    database. *)
Fixpoint serve_all (rs : list Request) (d : Db) : bool * Db :=
  match rs with
  | [] => (true, d)
  | r :: rs' =>
      let (ok, d1) := serve r d in
      let (oks, d2) := serve_all rs' d1 in
      (ok && oks, d2)
  end.

(** ** Sample data: three users, three accounts, five transactions *)

Module Sample.

Definition alice : User := mkUser "u1" "clerk_alice".
Definition bob : User := mkUser "u2" "clerk_bob".
Definition carol : User := mkUser "u3" "clerk_carol".

Definition X : Account :=
  mkAccount "X" "u1" "main" CURRENT (Dec.cents 10000) true.
Definition Y : Account :=
  mkAccount "Y" "u1" "savings" SAVINGS (Dec.cents 5000) false.
Definition B : Account :=
  mkAccount "B" "u2" "bob" CURRENT (Dec.cents 700) true.

Definition t1 : Transaction := mkTransaction "t1" "u1" "X" EXPENSE (Dec.cents 1000).
Definition t2 : Transaction := mkTransaction "t2" "u1" "X" EXPENSE (Dec.cents 3000).
Definition t3 : Transaction := mkTransaction "t3" "u1" "Y" INCOME (Dec.cents 500).
Definition t4 : Transaction := mkTransaction "t4" "u2" "B" INCOME (Dec.cents 500).
Definition t5 : Transaction := mkTransaction "t5" "u1" "Y" INCOME (Dec.cents 2000).

Definition store : Db :=
  mkDb [alice; bob; carol] [X; Y; B] [t1; t2; t3; t4; t5].

(** Alice's session, nothing scheduled to fail. *)
Definition world : World :=
  mkWorld (Some "clerk_alice") Allowed store [] (fun _ => "N") [] [].

(** Carol's session; she owns no account yet. *)
Definition carol_world : World :=
  mkWorld (Some "clerk_carol") Allowed store [] (fun _ => "N") [] [].

End Sample.

(** ** The read actions, the dashboard page and the middleware *)

From Stdlib Require Import Permutation Sorted DecimalN.

Record SerializedTransaction : Type := mkSerializedTransaction {
  st_id : Id;
  st_userId : Id;
  st_accountId : Id;
  st_type : TransactionType;
  st_amount : JsValue
}.

(** [serializeDecimal] / [serializeTransaction] on a transaction row:
    [obj.amount] is a Decimal object, hence truthy, and is replaced by
    its number; there is no [balance]. *)
Definition serializeDecimal_transaction (obj : Transaction)
  : SerializedTransaction :=
  mkSerializedTransaction (transaction_id obj) (transaction_userId obj)
    (transaction_accountId obj) (transaction_type obj)
    (if truthy (JDec (transaction_amount obj))
     then toNumber (transaction_amount obj)
     else JDec (transaction_amount obj)).

(** What [getAccountWithTransactions] returns for an account it found:
    the serialized account, its serialized transactions and [_count]. *)
Record AccountWithTransactions : Type := mkAccountWithTransactions {
  awt_account : SerializedAccount;
  awt_transactions : list SerializedTransaction;
  awt_count : nat
}.

Section Dated.

(** The [date] column of a transaction row.  The rows above leave it out,
    as no write reads it; the two queries below order by it. *)
Variable date : Transaction -> Z.

(** [orderBy: { date: "desc" }]: newest first, rows of equal date in
    table order. *)
Fixpoint insert_by_date (t : Transaction) (l : list Transaction)
  : list Transaction :=
  match l with
  | [] => [t]
  | x :: l' =>
      if date x <=? date t then t :: l else x :: insert_by_date t l'
  end.

Fixpoint orderBy_date_desc (l : list Transaction) : list Transaction :=
  match l with
  | [] => []
  | t :: l' => insert_by_date t (orderBy_date_desc l')
  end.

(** [db.account.findUnique({ where: { id, userId },
      include: { transactions: { orderBy: { date: "desc" } },
                 _count: { select: { transactions: true } } } })] *)
Definition account_findUnique_with_transactions (id userId : Id)
  : Action (option (Account * list Transaction * nat)) :=
  storage (fun d =>
    (Normal
       (match find (is_account_of id userId) (accounts d) with
        | None => None
        | Some a =>
            let linked :=
              filter (fun t => String.eqb (transaction_accountId t)
                                          (account_id a))
                     (transactions d) in
            Some (a, orderBy_date_desc linked, List.length linked)
        end), d)).

(** [getAccountWithTransactions] of [src/actions/account.js]; [None] is
    [null]. *)
Definition getAccountWithTransactions (accountId : Id)
  : Action (option AccountWithTransactions) :=
  userId <- auth ;;
  if not_userId userId then throw "Unauthorized" else
  user <- user_findUnique (match userId with Some u => u | None => "" end) ;;
  match user with
  | None => throw "User not found"
  | Some user =>
      account <- account_findUnique_with_transactions accountId
                   (user_id user) ;;
      match account with
      | None => ret None
      | Some (account, transactions, count) =>
          ret (Some (mkAccountWithTransactions
                       (serializeDecimal account)
                       (map serializeDecimal_transaction transactions)
                       count))
      end
  end.

(** [db.transaction.findMany({ where: { userId },
                              orderBy: { date: "desc" } })] *)
Definition transaction_findMany_of_user (userId : Id)
  : Action (list Transaction) :=
  storage (fun d =>
    (Normal (orderBy_date_desc
               (filter (owned_transaction userId) (transactions d))), d)).

(** [getDashboardData] of the dashboard actions. *)
Definition getDashboardData : Action (list SerializedTransaction) :=
  userId <- auth ;;
  if not_userId userId then throw "Unauthorized" else
  user <- user_findUnique (match userId with Some u => u | None => "" end) ;;
  match user with
  | None => throw "User not found"
  | Some user =>
      transactions <- transaction_findMany_of_user (user_id user) ;;
      ret (map serializeDecimal_transaction transactions)
  end.

End Dated.

(** [accounts?.find((account) => account.isDefault)] of the dashboard
    page, on what [getUserAccounts] returned. *)
Definition defaultAccount (accounts : option (list (SerializedAccount * nat)))
  : option (SerializedAccount * nat) :=
  match accounts with
  | None => None
  | Some l => find (fun account => s_isDefault (fst account)) l
  end.

(** *** [src/middleware.js]

    [createRouteMatcher] compiles each pattern with path-to-regexp into
    a regular expression that is anchored at both ends and ignores the
    case of letters, and tests it on the path of the request as the
    framework hands it over (decoded, repeated slashes made one); that
    path, as UTF-8, is [pathname] below.  A pattern made of a text [P]
    followed by a group that takes any characters matches the paths that
    begin with [P] and have no line break after it: the dot of the group
    takes every character but a line terminator. *)

Definition lower (c : ascii) : ascii :=
  let n := nat_of_ascii c in
  if (65 <=? n)%nat && (n <=? 90)%nat then ascii_of_nat (n + 32) else c.

(** What is left of [s] after the text [p], the case of letters
    ignored. *)
Fixpoint after_prefix (p s : string) : option string :=
  match p, s with
  | EmptyString, _ => Some s
  | String a p', String b s' =>
      if Ascii.eqb (lower a) (lower b) then after_prefix p' s' else None
  | String _ _, EmptyString => None
  end.

(** No line terminator: line feed, carriage return, U+2028, U+2029. *)
Fixpoint single_line (s : string) : bool :=
  match s with
  | EmptyString => true
  | String a s1 =>
      let n := nat_of_ascii a in
      if ((n =? 10) || (n =? 13))%nat then false else
      match s1 with
      | String b (String c _) =>
          if ((n =? 226) && (nat_of_ascii b =? 128) &&
              ((nat_of_ascii c =? 168) || (nat_of_ascii c =? 169)))%nat
          then false
          else single_line s1
      | _ => single_line s1
      end
  end.

(** The three patterns of [isProtectedRoute], each by the text before
    its any-characters group. *)
Definition protected_routes : list string :=
  ["/dashboard"; "/accounts"; "/transaction"].

Definition route_matches (p pathname : string) : bool :=
  match after_prefix p pathname with
  | Some rest => single_line rest
  | None => false
  end.

Definition isProtectedRoute (pathname : string) : bool :=
  existsb (fun p => route_matches p pathname) protected_routes.

Inductive Response : Type := RedirectToSignIn | Next.

(** The handler given to [clerkMiddleware]: [userId] is what [auth()]
    resolves for the request. *)
Definition middleware (userId : option string) (pathname : string)
  : Response :=
  if not_userId userId && isProtectedRoute pathname
  then RedirectToSignIn
  else Next.

(** *** Vocabulary of the further properties *)

(** [m], started in a world satisfying [P], ends in a world satisfying
    [Qn a] if it returns [a] and [Qt e] if it throws [e]. *)
Definition hoare {A} (P : World -> Prop) (m : Action A)
  (Qn : A -> World -> Prop) (Qt : string -> World -> Prop) : Prop :=
  forall w, P w ->
    match m w with
    | (Normal a, w') => Qn a w'
    | (Throw e, w') => Qt e w'
    end.

(** Newest first. *)
Definition newest_first (date : Transaction -> Z) (l : list Transaction)
  : Prop :=
  Sorted (fun x y => date y <= date x) l.

(** An account row without its balance, and without its default flag. *)
Definition without_balance (a : Account)
  : Id * Id * string * AccountType * bool :=
  (account_id a, account_userId a, account_name a, account_type a,
   account_isDefault a).

Definition without_isDefault (a : Account)
  : Id * Id * string * AccountType * Decimal :=
  (account_id a, account_userId a, account_name a, account_type a,
   account_balance a).

(** Dates for the sample transactions: t3 is the newest, t1 the oldest. *)
Definition sample_date (t : Transaction) : Z :=
  if String.eqb (transaction_id t) "t1" then 1
  else if String.eqb (transaction_id t) "t2" then 4
  else if String.eqb (transaction_id t) "t3" then 9
  else if String.eqb (transaction_id t) "t4" then 6
  else 3.

(** ** Vocabulary for the balances after a bulk delete *)








(** ** An account with an expense and an income

    The income t6 of 5.00 on account X, and Alice's world with a given
    transaction table. *)
Definition t6 : Transaction :=
  mkTransaction "t6" "u1" "X" INCOME (Dec.cents 500).

Definition mixed_world (ts : list Transaction) : World :=
  set_db (mkDb (users Sample.store) (accounts Sample.store) ts) Sample.world.

(** * Properties *)

(** ** Running actions *)

Lemma set_db_same w : set_db (db w) w = w.
Proof. destruct w; reflexivity. Qed.

Lemma bind_normal {A B} (m : Action A) (k : A -> Action B) w b w' :
  bind m k w = (Normal b, w') ->
  exists a w1, m w = (Normal a, w1) /\ k a w1 = (Normal b, w').
Proof.
  unfold bind. destruct (m w) as [[a | e] w1]; [eauto | discriminate].
Qed.

Lemma bind_throw {A B} (m : Action A) (k : A -> Action B) w e w' :
  bind m k w = (Throw e, w') ->
  m w = (Throw e, w') \/
  exists a w1, m w = (Normal a, w1) /\ k a w1 = (Throw e, w').
Proof.
  unfold bind. destruct (m w) as [[a | e1] w1]; intros H.
  - right. exists a, w1. split; [reflexivity | exact H].
  - left. injection H as -> ->. reflexivity.
Qed.

(** [run_normal H as a w Ha] splits [H : bind m k w0 = (Normal b, w')]
    into the run of [m], named [Ha], and the run of [k a], left in [H]. *)
Tactic Notation "run_normal" hyp(H) "as"
  simple_intropattern(a) simple_intropattern(w) simple_intropattern(Ha) :=
  apply bind_normal in H; destruct H as (a & w & Ha & H).

(** What a storage call leaves alone. *)
Lemma storage_frame {A} (op : Db -> Completion A * Db) w :
  let w' := snd (storage op w) in
  session w' = session w /\ shield w' = shield w /\ uuid w' = uuid w /\
  console w' = console w /\ revalidated w' = revalidated w.
Proof.
  unfold storage. destruct (faults w) as [| [] f]; simpl;
    try destruct (op (db w)); simpl; auto.
Qed.

(** A storage call that returned normally ran its operation. *)
Lemma storage_normal {A} (op : Db -> Completion A * Db) w a w' :
  storage op w = (Normal a, w') -> op (db w) = (Normal a, db w').
Proof.
  unfold storage. destruct (faults w) as [| [] f]; try discriminate;
    destruct (op (db w)) as [r d]; intros [= -> <-]; reflexivity.
Qed.

(** With no failure scheduled, a storage call is its operation. *)
Lemma storage_quiet {A} (op : Db -> Completion A * Db) w :
  faults w = [] ->
  storage op w = (fst (op (db w)), set_db (snd (op (db w))) w).
Proof.
  unfold storage. intros ->. destruct (op (db w)); reflexivity.
Qed.

(** A storage call whose operation only reads keeps the database. *)
Lemma storage_read_db {A} (op : Db -> Completion A * Db) w :
  (forall d, snd (op d) = d) -> db (snd (storage op w)) = db w.
Proof.
  intros Hop. unfold storage. destruct (faults w) as [| [] f]; simpl; auto;
    specialize (Hop (db w)); destruct (op (db w)); simpl in *; auto.
Qed.

Lemma caller_session w u :
  caller w = Some u ->
  not_userId (session w) = false /\
  find (fun x => String.eqb (user_clerkUserId x)
                   (match session w with Some s => s | None => "" end))
       (users (db w)) = Some u.
Proof.
  unfold caller. destruct (not_userId (session w)); [discriminate | auto].
Qed.

Lemma auth_run w : auth w = (Normal (session w), w).
Proof. reflexivity. Qed.

Lemma user_findUnique_normal c w a :
  fst (user_findUnique c w) = Normal a ->
  a = find (fun u => String.eqb (user_clerkUserId u) c) (users (db w)).
Proof.
  destruct (user_findUnique c w) as [r w'] eqn:E. simpl. intros ->.
  apply storage_normal in E. now injection E as <- _.
Qed.

Lemma dollar_transaction_throw {A} (body : Action A) w e w' :
  dollar_transaction body w = (Throw e, w') -> db w' = db w.
Proof.
  unfold dollar_transaction. destruct (body w) as [[a | e1] w1]; [discriminate|].
  intros [= _ <-]. destruct w1; reflexivity.
Qed.

Lemma dollar_transaction_normal {A} (body : Action A) w a w' :
  dollar_transaction body w = (Normal a, w') -> body w = (Normal a, w').
Proof.
  unfold dollar_transaction. destruct (body w) as [[x | e] w1];
    [auto | discriminate].
Qed.

Lemma rethrow_normal {A} (body : Action A) w a w' :
  try_catch body (fun e => throw e) w = (Normal a, w') ->
  body w = (Normal a, w').
Proof.
  unfold try_catch. destruct (body w) as [[x | e] w1]; [auto | discriminate].
Qed.

Lemma try_report_success {A} (body : Action (Payload A)) w s w' :
  try_catch body (fun error => ret (Failure error)) w
    = (Normal (Success s), w') ->
  body w = (Normal (Success s), w').
Proof.
  unfold try_catch. destruct (body w) as [[x | e] w1]; [auto | discriminate].
Qed.

(** ** Lists *)

Lemma filter_none_negb {A} (p : A -> bool) l :
  filter p l = [] -> filter (fun x => negb (p x)) l = l.
Proof.
  induction l as [| x l IH]; simpl; auto.
  destruct (p x); [discriminate|]. simpl. intros H. f_equal. auto.
Qed.

Lemma map_unless_none {A} (p : A -> bool) (f : A -> A) l :
  filter p l = [] -> map (fun x => if p x then f x else x) l = l.
Proof.
  induction l as [| x l IH]; simpl; auto.
  destruct (p x); [discriminate|]. intros H. f_equal. auto.
Qed.

Lemma filter_comm {A} (p q : A -> bool) l :
  filter p (filter q l) = filter q (filter p l).
Proof.
  induction l as [| x l IH]; simpl; auto.
  destruct (p x) eqn:Ep, (q x) eqn:Eq; simpl; rewrite ?Ep, ?Eq, IH; reflexivity.
Qed.

Lemma in_update_first {A} (p : A -> bool) (f : A -> A) l y :
  In y (update_first p f l) ->
  In y l \/ exists x, In x l /\ p x = true /\ y = f x.
Proof.
  induction l as [| x l IH]; simpl; auto.
  destruct (p x) eqn:E; simpl.
  - intros [<- | H]; eauto 6.
  - intros [<- | H]; auto. destruct (IH H) as [H' | (x' & H1 & H2 & H3)];
      eauto 7.
Qed.

(** ** The reducer *)

Lemma js_add_not_decimal a b : is_decimal (js_add a b) = false.
Proof.
  unfold js_add.
  destruct (to_primitive a) as [x | s | d | [] |],
           (to_primitive b) as [y | s' | d' | [] |]; reflexivity.
Qed.

Lemma obj_get_set o k v id x :
  obj_get (obj_set o k v) id = Some x ->
  x = v \/ obj_get o id = Some x.
Proof.
  induction o as [| [k' v'] o IH]; simpl.
  - destruct (String.eqb k id); [intros [= <-]; auto | discriminate].
  - destruct (String.eqb k' k) eqn:Ek; simpl.
    + destruct (String.eqb k' id); [intros [= <-]; auto | auto].
    + destruct (String.eqb k' id); auto.
Qed.

Lemma accumulate_no_decimal acc t :
  no_decimal_entry acc -> no_decimal_entry (accumulate acc t).
Proof.
  intros H id x Hx. unfold accumulate in Hx.
  apply obj_get_set in Hx. destruct Hx as [-> | Hx].
  - apply js_add_not_decimal.
  - eauto.
Qed.

Lemma fold_accumulate_no_decimal ts : forall acc,
  no_decimal_entry acc -> no_decimal_entry (fold_left accumulate ts acc).
Proof.
  induction ts as [| t ts IH]; simpl; intros acc H; auto.
  apply IH, accumulate_no_decimal, H.
Qed.

Lemma changes_no_decimal ts : no_decimal_entry (accountBalanceChanges ts).
Proof.
  apply fold_accumulate_no_decimal. intros id x. simpl. discriminate.
Qed.

(** Two expenses on one account: the reducer concatenates "0" and the
    two numerals. *)
Lemma two_expenses_concatenate t1 t2 :
  transaction_type t1 = EXPENSE ->
  transaction_type t2 = EXPENSE ->
  transaction_accountId t2 = transaction_accountId t1 ->
  accountBalanceChanges [t1; t2]
    = [(transaction_accountId t1,
        JStr ("0" ++ Dec.to_string (transaction_amount t1)
                  ++ Dec.to_string (transaction_amount t2)))].
Proof.
  intros H1 H2 H3.
  unfold accountBalanceChanges, accumulate, change. simpl.
  rewrite H1, H2, H3. simpl. rewrite String.eqb_refl. simpl.
  unfold js_add. simpl.
  change (Dec.to_string Dec.zero) with "0". reflexivity.
Qed.

(** ** The default flag *)

Lemma set_isDefault_restore a :
  account_isDefault a = true -> set_isDefault true (set_isDefault false a) = a.
Proof. destruct a; simpl; intros ->; reflexivity. Qed.

Lemma is_default_of_spec uid a :
  is_default_of uid a = true ->
  account_userId a = uid /\ account_isDefault a = true.
Proof.
  unfold is_default_of. intros H. apply andb_true_iff in H.
  destruct H as [H1 H2]. apply String.eqb_eq in H1. auto.
Qed.

Lemma is_account_of_cleared id uid a :
  account_id a = id -> account_userId a = uid ->
  is_account_of id uid (set_isDefault false a) = true.
Proof.
  unfold is_account_of. simpl. intros -> ->. now rewrite !String.eqb_refl.
Qed.

Lemma is_account_of_owner id uid a :
  is_account_of id uid a = true -> account_userId a = uid.
Proof.
  unfold is_account_of. intros H. apply andb_true_iff in H.
  now apply String.eqb_eq.
Qed.

Lemma clear_then_set_restores uid a : forall l,
  NoDup (map account_id l) ->
  filter (is_default_of uid) l = [a] ->
  let cleared :=
    map (fun x => if is_default_of uid x then set_isDefault false x else x) l in
  find (is_account_of (account_id a) uid) cleared
    = Some (set_isDefault false a) /\
  update_first (is_account_of (account_id a) uid) (set_isDefault true) cleared
    = l.
Proof.
  induction l as [| x l IH]; simpl; [discriminate|].
  intros Hnd Hf. inversion Hnd as [| ? ? Hx Hnd']; subst.
  destruct (is_default_of uid x) eqn:Ex.
  - injection Hf as -> Hf.
    apply is_default_of_spec in Ex. destruct Ex as [Eu Ed].
    rewrite is_account_of_cleared by auto.
    rewrite set_isDefault_restore by auto.
    rewrite map_unless_none by auto. auto.
  - assert (In a l) as Ha.
    { apply (proj1 (filter_In (is_default_of uid) a l)). rewrite Hf. left; reflexivity. }
    destruct (is_account_of (account_id a) uid x) eqn:Ea.
    + exfalso. apply Hx. unfold is_account_of in Ea.
      apply andb_true_iff in Ea. destruct Ea as [Ea _].
      apply String.eqb_eq in Ea. rewrite Ea. apply in_map, Ha.
    + destruct (IH Hnd' Hf) as [IH1 IH2]. split; [exact IH1|].
      f_equal. exact IH2.
Qed.

Lemma cleared_has_no_default uid l :
  filter (is_default_of uid)
         (map (fun a => if is_default_of uid a
                        then set_isDefault false a else a) l) = [].
Proof.
  induction l as [| x l IH]; simpl; auto.
  destruct (is_default_of uid x) eqn:E; simpl.
  - unfold is_default_of at 1. simpl. rewrite andb_false_r. exact IH.
  - rewrite E. exact IH.
Qed.

Lemma cleared_keeps_other_defaults uid v l :
  v <> uid ->
  filter (is_default_of v)
         (map (fun a => if is_default_of uid a
                        then set_isDefault false a else a) l)
    = filter (is_default_of v) l.
Proof.
  intros Hv. induction l as [| x l IH]; simpl; auto.
  destruct (is_default_of uid x) eqn:E; simpl; [| now rewrite IH].
  apply is_default_of_spec in E. destruct E as [Eu _].
  assert (is_default_of v x = false) as Ex.
  { unfold is_default_of. rewrite Eu.
    destruct (String.eqb_spec uid v); [congruence | reflexivity]. }
  unfold is_default_of at 1. simpl. rewrite andb_false_r, Ex. exact IH.
Qed.

Lemma set_default_one uid id : forall l a,
  filter (is_default_of uid) l = [] ->
  find (is_account_of id uid) l = Some a ->
  filter (is_default_of uid)
         (update_first (is_account_of id uid) (set_isDefault true) l)
    = [set_isDefault true a].
Proof.
  induction l as [| x l IH]; simpl; intros a Hn Hf; [discriminate|].
  destruct (is_default_of uid x) eqn:Ed; [discriminate|].
  destruct (is_account_of id uid x) eqn:Ep; simpl.
  - injection Hf as <-. apply is_account_of_owner in Ep.
    unfold is_default_of at 1. simpl. rewrite Ep, String.eqb_refl. simpl.
    now rewrite Hn.
  - rewrite Ed. auto.
Qed.

Lemma set_default_keeps_others uid v id : forall l,
  v <> uid ->
  filter (is_default_of v)
         (update_first (is_account_of id uid) (set_isDefault true) l)
    = filter (is_default_of v) l.
Proof.
  intros l Hv. induction l as [| x l IH]; simpl; auto.
  destruct (is_account_of id uid x) eqn:Ep; simpl; [| now rewrite IH].
  apply is_account_of_owner in Ep.
  assert (forall b, is_default_of v (set_isDefault b x) = false) as Ex.
  { intros b. unfold is_default_of. simpl. rewrite Ep.
    destruct (String.eqb_spec uid v); [congruence | reflexivity]. }
  assert (is_default_of v x = false) as Ex'.
  { unfold is_default_of. rewrite Ep.
    destruct (String.eqb_spec uid v); [congruence | reflexivity]. }
  now rewrite Ex, Ex'.
Qed.

Lemma in_cleared uid l y :
  In y (map (fun a => if is_default_of uid a
                      then set_isDefault false a else a) l) ->
  exists x, In x l /\ account_userId x = account_userId y.
Proof.
  intros H. apply in_map_iff in H. destruct H as (x & Hx & Hin).
  exists x. split; [exact Hin|].
  destruct (is_default_of uid x); subst y; reflexivity.
Qed.

Lemma unset_defaults_normal userId w w' :
  account_unset_defaults userId w = (Normal tt, w') ->
  accounts (db w') =
    map (fun a => if is_default_of userId a then set_isDefault false a else a)
        (accounts (db w)) /\
  uuid w' = uuid w.
Proof.
  intros H. split.
  - apply storage_normal in H. injection H as <-. reflexivity.
  - pose proof (storage_frame
      (fun d => (Normal tt,
         mkDb (users d)
              (map (fun a => if is_default_of userId a
                             then set_isDefault false a else a) (accounts d))
              (transactions d))) w) as F.
    unfold account_unset_defaults in H. rewrite H in F. simpl in F. tauto.
Qed.

Lemma account_create_normal name type balance userId isDefault w row w' :
  account_create name type balance userId isDefault w = (Normal row, w') ->
  exists ty b,
    account_type_of_string type = Some ty /\
    decimal_input balance = Some b /\
    row = mkAccount (uuid w (List.length (accounts (db w)))) userId name ty b
                    (requested_flag isDefault) /\
    accounts (db w') = (accounts (db w) ++ [row])%list /\
    users (db w') = users (db w) /\
    transactions (db w') = transactions (db w).
Proof.
  unfold account_create. intros H. apply storage_normal in H.
  destruct (account_type_of_string type) as [ty|]; [|discriminate].
  destruct (decimal_input balance) as [b|]; [|discriminate].
  destruct (existsb _ _); [discriminate|].
  injection H as <- H. exists ty, b. rewrite <- H. simpl. auto 10.
Qed.

Lemma flag_truthy_requested f :
  requested_flag f = flag_truthy f.
Proof. destruct f as [[] |]; reflexivity. Qed.

(** What a successful [createAccount] did. *)
Lemma createAccount_success data w s w' :
  createAccount data w = (Normal (Success s), w') ->
  exists u row balanceFloat,
    caller w = Some u /\
    decimal_input (parseFloat (data_balance data)) = Some balanceFloat /\
    s = serializeTransaction row /\
    account_userId row = user_id u /\
    account_balance row = balanceFloat /\
    let existingAccounts :=
      filter (fun a => String.eqb (account_userId a) (user_id u))
             (accounts (db w)) in
    let shouldBeDefault :=
      match existingAccounts with
      | [] => Some true
      | _ => data_isDefault data
      end in
    account_isDefault row = requested_flag shouldBeDefault /\
    accounts (db w') =
      ((if flag_truthy shouldBeDefault
        then map (fun a => if is_default_of (user_id u) a
                           then set_isDefault false a else a)
                 (accounts (db w))
        else accounts (db w)) ++ [row])%list.
Proof.
  unfold createAccount. intros H. apply rethrow_normal in H.
  run_normal H as userId w1 Ha.
  injection Ha as <- <-.
  destruct (not_userId (session w)) eqn:Hs; [discriminate|].
  run_normal H as decision w1 Hp.
  injection Hp as <- <-.
  destruct (shield w); [| discriminate | discriminate].
  run_normal H as us w2 Hu.
  apply storage_normal in Hu. injection Hu as Hu H2.
  destruct us as [user|]; [|discriminate].
  cbv zeta in H.
  destruct (isNaN (parseFloat (data_balance data))); [discriminate|].
  run_normal H as existing w3 He.
  apply storage_normal in He. injection He as He H3.
  run_normal H as [] w4 Hc.
  run_normal H as row w5 Hr.
  apply account_create_normal in Hr.
  destruct Hr as (ty & b & _ & Hb & Hrow & Hacc & _ & _).
  run_normal H as [] w6 Hv.
  injection Hv as <-. injection H as <- <-.
  exists user, row, b.
  split; [unfold caller; rewrite Hs; exact Hu|].
  split; [exact Hb|]. split; [reflexivity|].
  rewrite H2, He.
  split; [rewrite Hrow; reflexivity|].
  split; [rewrite Hrow; reflexivity|].
  split; [rewrite Hrow; reflexivity|].
  simpl. rewrite Hacc. f_equal.
  destruct (flag_truthy _).
  - apply unset_defaults_normal in Hc. rewrite (proj1 Hc), <- H3, <- H2.
    reflexivity.
  - injection Hc as <-. rewrite <- H3, <- H2. reflexivity.
Qed.

(** ** How [bulkDeleteTransactions] ends *)

Lemma increment_keeps_transactions id v w :
  transactions (db (snd (account_increment_balance id v w)))
    = transactions (db w).
Proof.
  unfold account_increment_balance, storage, account_update_row.
  destruct (faults w) as [| [] f]; simpl; auto;
    destruct (decimal_input v); simpl; auto;
    destruct (find _ (accounts (db w))); simpl; auto.
Qed.

Lemma increments_keep_transactions changes : forall w,
  transactions
    (db (snd (for_of changes (fun '(accountId, balanceChange) =>
                account_increment_balance accountId balanceChange ;;; ret tt)
              w)))
    = transactions (db w).
Proof.
  induction changes as [| [id v] changes IH]; simpl; intros w; auto.
  unfold bind at 1 2.
  pose proof (increment_keeps_transactions id v w) as E.
  destruct (account_increment_balance id v w) as [[a | e] w1]; simpl in *.
  - rewrite IH. exact E.
  - exact E.
Qed.

(** The two ways [bulkDeleteTransactions] can end: a failure payload and
    the database as it was, or success and the caller's requested
    transactions gone. *)
Lemma bulkDelete_outcome ids w :
  (exists e, fst (bulkDeleteTransactions ids w) = Normal (Failure e) /\
             db (snd (bulkDeleteTransactions ids w)) = db w) \/
  (fst (bulkDeleteTransactions ids w) = Normal (Success tt) /\
   exists u, caller w = Some u /\
     transactions (db (snd (bulkDeleteTransactions ids w)))
       = filter (fun t => negb (transaction_where ids (user_id u) t))
                (transactions (db w))).
Proof.
  unfold bulkDeleteTransactions, try_catch.
  match goal with
  | |- context [match ?b w with _ => _ end] =>
      destruct (b w) as [[p | e1] w1] eqn:Hb
  end; simpl.
  - right.
    run_normal Hb as s w2 Hs.
    injection Hs as <- <-.
    destruct (not_userId (session w)) eqn:Es; [discriminate|].
    run_normal Hb as us w3 Hu.
    apply storage_normal in Hu. injection Hu as Hu H3.
    destruct us as [user|]; [|discriminate].
    run_normal Hb as ts w4 Ht.
    apply storage_normal in Ht. injection Ht as Ht H4.
    run_normal Hb as [] w5 Hd.
    apply dollar_transaction_normal in Hd.
    apply bind_normal in Hd. destruct Hd as ([] & w6 & Hdel & Hfor).
    apply storage_normal in Hdel. injection Hdel as H6.
    apply (f_equal (fun r => transactions (db (snd r)))) in Hfor.
    rewrite increments_keep_transactions in Hfor. simpl in Hfor.
    run_normal Hb as [] w7 H7.
    injection H7 as <-.
    run_normal Hb as [] w8 H8.
    injection H8 as <-. injection Hb as <- <-.
    split; [reflexivity|]. exists user.
    split; [unfold caller; rewrite Es; exact Hu|].
    simpl. rewrite <- Hfor, <- H6. simpl. rewrite <- H4, <- H3. reflexivity.
  - left. exists e1. split; [reflexivity|].
    apply bind_throw in Hb.
    destruct Hb as [Hb | (s & w2 & Hs & Hb)]; [discriminate|].
    injection Hs as <- <-.
    destruct (not_userId (session w)); [injection Hb as _ <-; reflexivity|].
    apply bind_throw in Hb. destruct Hb as [Hb | (us & w3 & Hu & Hb)].
    { apply (f_equal snd) in Hb. simpl in Hb. subst w1.
      apply storage_read_db. reflexivity. }
    assert (db w3 = db w) as H3.
    { apply (f_equal snd) in Hu. simpl in Hu. subst w3.
      apply storage_read_db. reflexivity. }
    destruct us as [user|]; [| injection Hb as _ <-; exact H3].
    apply bind_throw in Hb. destruct Hb as [Hb | (ts & w4 & Ht & Hb)].
    { apply (f_equal snd) in Hb. simpl in Hb. subst w1. rewrite <- H3.
      apply storage_read_db. reflexivity. }
    assert (db w4 = db w) as H4.
    { apply (f_equal snd) in Ht. simpl in Ht. subst w4. rewrite <- H3.
      apply storage_read_db. reflexivity. }
    apply bind_throw in Hb. destruct Hb as [Hb | (? & w5 & _ & Hb)].
    { apply dollar_transaction_throw in Hb. congruence. }
    apply bind_throw in Hb.
    destruct Hb as [Hb | (? & w6 & _ & Hb)]; [discriminate|].
    apply bind_throw in Hb.
    destruct Hb as [Hb | (? & w7 & _ & Hb)]; discriminate.
Qed.

(** ** Two runs that differ in foreign transactions *)

Section Simulation.

Variable R : World -> World -> Prop.

Lemma sim_at_bind {A B} (m1 m2 : Action A) (k1 k2 : A -> Action B) w1 w2 :
  sim_at R m1 m2 w1 w2 ->
  (forall a, fst (m1 w1) = Normal a ->
             R (snd (m1 w1)) (snd (m2 w2)) ->
             sim_at R (k1 a) (k2 a) (snd (m1 w1)) (snd (m2 w2))) ->
  sim_at R (bind m1 k1) (bind m2 k2) w1 w2.
Proof.
  unfold sim_at, bind. intros [Hr Hw] Hk.
  destruct (m1 w1) as [[a | e] w1'], (m2 w2) as [[a2 | e2] w2'];
    simpl in *; try discriminate.
  - injection Hr as <-. apply Hk; [reflexivity | assumption].
  - injection Hr as <-. auto.
Qed.

Lemma sim_at_try_catch {A} (b1 b2 : Action A) (h1 h2 : string -> Action A)
  w1 w2 :
  sim_at R b1 b2 w1 w2 ->
  (forall e, fst (b1 w1) = Throw e ->
             R (snd (b1 w1)) (snd (b2 w2)) ->
             sim_at R (h1 e) (h2 e) (snd (b1 w1)) (snd (b2 w2))) ->
  sim_at R (try_catch b1 h1) (try_catch b2 h2) w1 w2.
Proof.
  unfold sim_at, try_catch. intros [Hr Hw] Hh.
  destruct (b1 w1) as [[a | e] w1'], (b2 w2) as [[a2 | e2] w2'];
    simpl in *; try discriminate.
  - injection Hr as <-. auto.
  - injection Hr as <-. apply Hh; [reflexivity | assumption].
Qed.

Lemma sim_at_ret {A} (a : A) w1 w2 : R w1 w2 -> sim_at R (ret a) (ret a) w1 w2.
Proof. unfold sim_at, ret. auto. Qed.

End Simulation.

Lemma filter_where_owned ids u l :
  filter (transaction_where ids u) l
    = filter (fun t => id_in ids (transaction_id t))
             (filter (owned_transaction u) l).
Proof.
  induction l as [| t l IH]; simpl; auto.
  unfold transaction_where at 1, owned_transaction at 1.
  destruct (String.eqb (transaction_userId t) u); simpl.
  - rewrite andb_true_r. destruct (id_in ids (transaction_id t)); rewrite IH; reflexivity.
  - rewrite andb_false_r. exact IH.
Qed.

Lemma storage_agree u {A} (op1 op2 : Db -> Completion A * Db) w1 w2 :
  agree_for u w1 w2 ->
  fst (op1 (db w1)) = fst (op2 (db w2)) ->
  users (snd (op1 (db w1))) = users (snd (op2 (db w2))) ->
  accounts (snd (op1 (db w1))) = accounts (snd (op2 (db w2))) ->
  filter (owned_transaction u) (transactions (snd (op1 (db w1))))
    = filter (owned_transaction u) (transactions (snd (op2 (db w2)))) ->
  sim_at (agree_for u) (storage op1) (storage op2) w1 w2.
Proof.
  intros [(Hs & Hsh & Hf & Hu & Hc & Hr & Hus & Hac) Ht] H1 H2 H3 H4.
  unfold sim_at, storage. rewrite <- Hf.
  destruct (faults w1) as [| [] f] eqn:E;
    try (destruct (op1 (db w1)) as [r1 d1], (op2 (db w2)) as [r2 d2]);
    simpl in *; (split; [assumption || reflexivity |]);
    unfold agree_for, agree_but_transactions; simpl; rewrite ?E; auto 10.
Qed.

Lemma sim_auth u w1 w2 :
  agree_for u w1 w2 -> sim_at (agree_for u) auth auth w1 w2.
Proof.
  intros H. pose proof H as [(Hs & _) _].
  unfold sim_at, auth. simpl. rewrite Hs. auto.
Qed.

Lemma sim_user_findUnique u c w1 w2 :
  agree_for u w1 w2 ->
  sim_at (agree_for u) (user_findUnique c) (user_findUnique c) w1 w2.
Proof.
  intros H. pose proof H as [(_ & _ & _ & _ & _ & _ & Hus & Hac) Ht].
  apply storage_agree; simpl; auto. now rewrite Hus.
Qed.

Lemma sim_transaction_findMany u ids w1 w2 :
  agree_for u w1 w2 ->
  sim_at (agree_for u) (transaction_findMany ids u)
         (transaction_findMany ids u) w1 w2.
Proof.
  intros H. pose proof H as [(_ & _ & _ & _ & _ & _ & Hus & Hac) Ht].
  apply storage_agree; simpl; auto.
  now rewrite !filter_where_owned, Ht.
Qed.

Lemma sim_transaction_deleteMany u ids w1 w2 :
  agree_for u w1 w2 ->
  sim_at (agree_for u) (transaction_deleteMany ids u)
         (transaction_deleteMany ids u) w1 w2.
Proof.
  intros H. pose proof H as [(_ & _ & _ & _ & _ & _ & Hus & Hac) Ht].
  apply storage_agree; simpl; auto.
  rewrite filter_comm, Ht. apply filter_comm.
Qed.

Lemma sim_account_increment_balance u id v w1 w2 :
  agree_for u w1 w2 ->
  sim_at (agree_for u) (account_increment_balance id v)
         (account_increment_balance id v) w1 w2.
Proof.
  intros H. pose proof H as [(_ & _ & _ & _ & _ & _ & Hus & Hac) Ht].
  apply storage_agree; auto;
    destruct (decimal_input v); simpl; auto;
    unfold account_update_row; rewrite Hac;
    destruct (find _ (accounts (db w2))); simpl; auto.
Qed.

Lemma sim_revalidatePath u p w1 w2 :
  agree_for u w1 w2 ->
  sim_at (agree_for u) (revalidatePath p) (revalidatePath p) w1 w2.
Proof.
  intros [(Hs & Hsh & Hf & Hu & Hc & Hr & Hus & Hac) Ht].
  unfold sim_at, revalidatePath, agree_for, agree_but_transactions. simpl.
  rewrite Hr. auto 10.
Qed.

Lemma sim_for_of_increments u changes : forall w1 w2,
  agree_for u w1 w2 ->
  sim_at (agree_for u)
    (for_of changes (fun '(accountId, balanceChange) =>
       account_increment_balance accountId balanceChange ;;; ret tt))
    (for_of changes (fun '(accountId, balanceChange) =>
       account_increment_balance accountId balanceChange ;;; ret tt))
    w1 w2.
Proof.
  induction changes as [| [id v] changes IH]; simpl; intros w1 w2 H.
  - apply sim_at_ret, H.
  - apply sim_at_bind.
    + apply sim_at_bind; [apply sim_account_increment_balance, H|].
      intros a _ H'. apply sim_at_ret, H'.
    + intros [] _ H'. apply IH, H'.
Qed.

Lemma sim_dollar_transaction u {A} (b1 b2 : Action A) w1 w2 :
  agree_for u w1 w2 ->
  sim_at (agree_for u) b1 b2 w1 w2 ->
  sim_at (agree_for u) (dollar_transaction b1) (dollar_transaction b2) w1 w2.
Proof.
  intros [(_ & _ & _ & _ & _ & _ & Hus & Hac) Ht].
  unfold sim_at, dollar_transaction.
  destruct (b1 w1) as [[a | e] w1'], (b2 w2) as [[a2 | e2] w2'];
    simpl; intros [Hr Hw]; try discriminate; split; auto.
  destruct Hw as [(Hs' & Hsh' & Hf' & Hu' & Hc' & Hr' & _ & _) _].
  unfold agree_for, agree_but_transactions. simpl. auto 10.
Qed.

Lemma bulkDelete_sim user ids w1 w2 :
  agree_for (user_id user) w1 w2 ->
  caller w1 = Some user ->
  sim_at (agree_for (user_id user)) (bulkDeleteTransactions ids)
         (bulkDeleteTransactions ids) w1 w2.
Proof.
  intros H Hc. apply caller_session in Hc. destruct Hc as [Hs Hu].
  unfold bulkDeleteTransactions.
  apply sim_at_try_catch; [| intros e _ H'; apply sim_at_ret, H'].
  apply sim_at_bind; [apply sim_auth, H|].
  simpl. intros a [= <-] _. rewrite Hs.
  apply sim_at_bind; [apply sim_user_findUnique, H|].
  intros a Ha H1. apply user_findUnique_normal in Ha. rewrite Hu in Ha.
  subst a.
  apply sim_at_bind; [apply sim_transaction_findMany, H1|].
  intros ts _ H2.
  apply sim_at_bind.
  { apply sim_dollar_transaction; [exact H2|].
    apply sim_at_bind; [apply sim_transaction_deleteMany, H2|].
    intros [] _ H3. apply sim_for_of_increments, H3. }
  intros [] _ H3.
  apply sim_at_bind; [apply sim_revalidatePath, H3|].
  intros [] _ H4.
  apply sim_at_bind; [apply sim_revalidatePath, H4|].
  intros [] _ H5. apply sim_at_ret, H5.
Qed.

Lemma agree_without_foreign w user :
  caller w = Some user ->
  agree_for (user_id user) w (without_foreign w).
Proof.
  intros Hc. unfold without_foreign. rewrite Hc.
  unfold agree_for, agree_but_transactions. simpl.
  repeat split; auto.
  induction (transactions (db w)) as [| t l IH]; simpl; auto.
  destruct (owned_transaction (user_id user) t) eqn:E; simpl; rewrite ?E;
    [f_equal |]; exact IH.
Qed.

(** ** Invariant I1 under successful calls *)

(** A default switch that reports success leaves I1 in force. *)
Lemma updateDefaultAccount_keeps_single_default accountId w s w' :
  updateDefaultAccount accountId w = (Normal (Success s), w') ->
  single_default (db w) ->
  single_default (db w').
Proof.
  unfold updateDefaultAccount. intros H Hinv. apply try_report_success in H.
  run_normal H as sid w1 Ha.
  injection Ha as <- <-.
  destruct (not_userId (session w)); [discriminate|].
  run_normal H as us w2 Hu.
  apply storage_normal in Hu. injection Hu as _ H2.
  destruct us as [user|]; [|discriminate].
  run_normal H as [] w3 Hc.
  apply unset_defaults_normal in Hc. destruct Hc as [Hc _].
  run_normal H as a w4 Hs.
  apply storage_normal in Hs. unfold account_update_row in Hs.
  destruct (find _ (accounts (db w3))) as [a0|] eqn:Hf; [|discriminate].
  injection Hs as _ H4.
  run_normal H as [] w5 Hv.
  injection Hv as <-. injection H as _ <-.
  assert (accounts (db w4)
          = update_first (is_account_of accountId (user_id user))
                         (set_isDefault true) (accounts (db w3))) as Hacc
    by (rewrite <- H4; reflexivity).
  intros y Hy. simpl in Hy. unfold defaults_of. simpl.
  rewrite Hacc in *. rewrite Hc in *. rewrite <- H2 in *.
  destruct (String.eqb_spec (account_userId y) (user_id user)) as [E | E].
  - rewrite E.
    rewrite (set_default_one _ _ _ a0); auto using cleared_has_no_default.
  - rewrite set_default_keeps_others, cleared_keeps_other_defaults by exact E.
    apply in_update_first in Hy.
    destruct Hy as [Hy | (x & _ & Hp & ->)].
    + apply in_cleared in Hy. destruct Hy as (x & Hx & <-).
      apply (Hinv x Hx).
    + apply is_account_of_owner in Hp. simpl in E. congruence.
Qed.

(** An account creation that succeeds leaves I1 in force. *)
Lemma createAccount_keeps_single_default data w s w' :
  createAccount data w = (Normal (Success s), w') ->
  single_default (db w) ->
  single_default (db w').
Proof.
  intros H Hinv. apply createAccount_success in H.
  destruct H as (u & row & n & _ & _ & _ & Hu & _ & Hd & Hacc).
  cbv zeta in Hd, Hacc. rewrite flag_truthy_requested in Hd.
  set (existing := filter (fun a => String.eqb (account_userId a) (user_id u))
                          (accounts (db w))) in *.
  set (should := match existing with
                 | [] => Some true
                 | _ => data_isDefault data
                 end) in *.
  intros y Hy. unfold defaults_of. rewrite Hacc in *.
  rewrite filter_app, length_app. simpl.
  apply in_app_or in Hy.
  destruct (String.eqb_spec (account_userId y) (user_id u)) as [E | E].
  - rewrite E.
    assert (is_default_of (user_id u) row = flag_truthy should) as Er.
    { unfold is_default_of. rewrite Hu, String.eqb_refl, Hd. reflexivity. }
    rewrite Er. destruct (flag_truthy should) eqn:Ef; simpl.
    + now rewrite cleared_has_no_default.
    + destruct existing as [| x existing'] eqn:Ex; [discriminate|].
      assert (In x (accounts (db w)) /\ account_userId x = user_id u)
        as [Hx Hxu].
      { assert (In x existing) as Hin by (rewrite Ex; left; reflexivity).
        apply filter_In in Hin. destruct Hin as [Hin Hq].
        apply String.eqb_eq in Hq. auto. }
      specialize (Hinv x Hx). unfold defaults_of in Hinv.
      rewrite Hxu in Hinv. rewrite Hinv. reflexivity.
  - assert (is_default_of (account_userId y) row = false) as Er.
    { unfold is_default_of. rewrite Hu.
      destruct (String.eqb_spec (user_id u) (account_userId y));
        [congruence | reflexivity]. }
    rewrite Er. simpl. rewrite Nat.add_0_r.
    destruct Hy as [Hy | [<- | []]]; [| congruence].
    destruct (flag_truthy should).
    + rewrite cleared_keeps_other_defaults by exact E.
      apply in_cleared in Hy. destruct Hy as (x & Hx & Hxy).
      rewrite <- Hxy. apply (Hinv x Hx).
    + apply (Hinv y Hy).
Qed.

Lemma succeeded_inv {A} (c : Completion (Payload A)) :
  succeeded c = true -> exists s, c = Normal (Success s).
Proof. destruct c as [[s | e] | e]; try discriminate. eauto. Qed.

Lemma serve_keeps_single_default r d :
  single_default d ->
  fst (serve r d) = true ->
  single_default (snd (serve r d)).
Proof.
  intros Hinv. unfold serve. destruct (request_call r) as [data | accountId].
  - destruct (createAccount data (request_world r d)) as [c w] eqn:E.
    simpl. intros Hc. apply succeeded_inv in Hc. destruct Hc as [s ->].
    apply (createAccount_keeps_single_default _ _ _ _ E). exact Hinv.
  - destruct (updateDefaultAccount accountId (request_world r d))
      as [c w] eqn:E.
    simpl. intros Hc. apply succeeded_inv in Hc. destruct Hc as [s ->].
    apply (updateDefaultAccount_keeps_single_default _ _ _ _ E). exact Hinv.
Qed.

(** I1 survives every sequence of calls that all succeed. *)
Lemma successful_calls_keep_single_default rs : forall d,
  single_default d ->
  fst (serve_all rs d) = true ->
  single_default (snd (serve_all rs d)).
Proof.
  induction rs as [| r rs IH]; simpl; intros d Hinv; auto.
  pose proof (serve_keeps_single_default r d Hinv) as Hr.
  destruct (serve r d) as [ok d1]. simpl in Hr.
  specialize (IH d1). destruct (serve_all rs d1) as [oks d2]. simpl in *.
  intros Hok. apply andb_true_iff in Hok. destruct Hok as [-> Hoks]. auto.
Qed.

(** * The claims of the specification *)

(** ** Single default account (C1, C2) *)

Lemma sample_store_single_default : single_default Sample.store.
Proof.
  intros a Ha. simpl in Ha.
  destruct Ha as [<- | [<- | [<- | []]]]; reflexivity.
Qed.

(** C1 (single-default invariant), evaluated where the code breaks it.
    Alice owns X (default) and Y, and the store satisfies I1.  The one
    request served is [updateDefaultAccount "B"], B being Bob's account.
    The clear phase is written, then the update of
    [{ id: "B", userId: "u1" }] finds no row and throws; the action
    reports failure, and Alice, who still owns two accounts, has no
    default account left. *)
Theorem failed_default_switch_leaves_no_default :
  let request :=
    mkRequest (Some "clerk_alice") Allowed [] (fun _ => "N")
              (CallUpdateDefaultAccount "B") in
  single_default Sample.store /\
  fst (updateDefaultAccount "B" (request_world request Sample.store))
    = Normal (Failure "Record to update not found.") /\
  serve_all [request] Sample.store
    = (false,
       mkDb (users Sample.store)
            [set_isDefault false Sample.X; Sample.Y; Sample.B]
            (transactions Sample.store)) /\
  defaults_of "u1" (snd (serve_all [request] Sample.store)) = [] /\
  ~ single_default (snd (serve_all [request] Sample.store)).
Proof.
  intros request.
  split; [exact sample_store_single_default|].
  repeat split; try reflexivity.
  intros H. specialize (H Sample.Y).
  assert (In Sample.Y (accounts (snd (serve_all [request] Sample.store))))
    as HY by (vm_compute; auto).
  apply H in HY. vm_compute in HY. discriminate.
Qed.

(** C2 (atomic two-phase default switch), evaluated where the two phases
    come apart.  In [updateDefaultAccount "Y"] the third storage call
    (the set phase) is made to fail: the action reports failure, yet X
    has lost its flag.  In [createAccount] with [isDefault: true] and a
    type the store rejects, the insert throws after the clear phase was
    written: the action throws, no account was added, and Alice has no
    default account. *)
Theorem failed_set_phase_keeps_the_clear_phase :
  (let w := set_faults [false; false; true] Sample.world in
   fst (updateDefaultAccount "Y" w) = Normal (Failure "storage failure") /\
   find_account "X" (db w) = Some Sample.X /\
   find_account "X" (db (snd (updateDefaultAccount "Y" w)))
     = Some (set_isDefault false Sample.X) /\
   defaults_of "u1" (db (snd (updateDefaultAccount "Y" w))) = []) /\
  (let data := mkAccountData "trip" "CHECKING" "25.00" (Some true) in
   fst (createAccount data Sample.world) = Throw "Invalid value provided." /\
   accounts (db (snd (createAccount data Sample.world)))
     = [set_isDefault false Sample.X; Sample.Y; Sample.B] /\
   defaults_of "u1" (db (snd (createAccount data Sample.world))) = []).
Proof. repeat split; reflexivity. Qed.

(** ** Bulk delete (C3, C4, C6, C8) *)

(** C3 (balance conservation under bulk delete), evaluated where the code
    breaks it.  Alice deletes t1 and t2, two expenses of 10.00 and 30.00
    on account X (balance 100.00).  The reducer computes
    [(undefined || 0) + amount1 = "010"] and then ["010" + amount2 =
    "01030"]: [+] on a Decimal object concatenates its numeral.  The
    store reads the increment "01030" as 1030 and X ends at 1130.00; the
    claim asks for 100.00 + 10.00 + 30.00 = 140.00. *)
Theorem bulkDelete_two_expenses_on_one_account :
  accountBalanceChanges [Sample.t1; Sample.t2] = [("X", JStr "01030")] /\
  fst (bulkDeleteTransactions ["t1"; "t2"] Sample.world)
    = Normal (Success tt) /\
  balance_of "X" (db (snd (bulkDeleteTransactions ["t1"; "t2"] Sample.world)))
    = Some (Dec.cents 113000) /\
  Dec.add (account_balance Sample.X)
          (Dec.add (reversal_delta Sample.t1) (reversal_delta Sample.t2))
    = Dec.cents 14000 /\
  ~ Dec.eqv (Dec.cents 113000) (Dec.cents 14000).
Proof. repeat split; try reflexivity. vm_compute. discriminate. Qed.

(** A failing increment ends the loop of increments with its error. *)
Lemma failed_increment_ends_the_loop changes : forall w e,
  first_failed_increment changes w = Some e ->
  exists w',
    for_of changes (fun '(accountId, balanceChange) =>
       account_increment_balance accountId balanceChange ;;; ret tt) w
    = (Throw e, w').
Proof.
  induction changes as [| [k v] changes IH]; simpl; intros w e H;
    [discriminate|].
  unfold bind at 1 2.
  destruct (account_increment_balance k v w) as [[a | e1] w1].
  - simpl. apply IH. exact H.
  - injection H as <-. eauto.
Qed.

(** C4 (atomicity of bulk delete).  [bulkDeleteTransactions] always
    returns a payload; whenever the payload is a failure, the database
    after the call is the database before it; and a failure of the apply
    step does come out as a failure: once the caller's record and the
    requested transactions are read, if the deletion fails, or else any
    of the balance increments, made one after another, fails, the
    payload is that failure and the database is the database from before
    the call: every transaction still exists and every balance has its
    value from the start of the call. *)
Theorem bulkDelete_failure_commits_nothing ids w :
  (fst (bulkDeleteTransactions ids w) = Normal (Success tt) \/
   exists e, fst (bulkDeleteTransactions ids w) = Normal (Failure e)) /\
  (forall e,
     fst (bulkDeleteTransactions ids w) = Normal (Failure e) ->
     db (snd (bulkDeleteTransactions ids w)) = db w) /\
  (forall userId user w1 transactions w2 e,
     session w = Some userId ->
     not_userId (Some userId) = false ->
     user_findUnique userId w = (Normal (Some user), w1) ->
     transaction_findMany ids (user_id user) w1 = (Normal transactions, w2) ->
     apply_step_failure ids (user_id user)
       (accountBalanceChanges transactions) w2 = Some e ->
     fst (bulkDeleteTransactions ids w) = Normal (Failure e) /\
     db (snd (bulkDeleteTransactions ids w)) = db w).
Proof.
  assert (forall e,
            fst (bulkDeleteTransactions ids w) = Normal (Failure e) ->
            db (snd (bulkDeleteTransactions ids w)) = db w) as Hkeep.
  { destruct (bulkDelete_outcome ids w) as [(e' & He & Hd) | [Hs _]].
    - intros _ _. exact Hd.
    - intros e H. rewrite Hs in H. discriminate. }
  split; [| split; [exact Hkeep|]].
  - destruct (bulkDelete_outcome ids w) as [(e' & He & _) | [Hs _]];
      [right; exists e'; exact He | left; exact Hs].
  - intros userId user w1 transactions w2 e Hs Hn Hu Ht Hfail.
    assert (fst (bulkDeleteTransactions ids w) = Normal (Failure e)) as Hf.
    { unfold bulkDeleteTransactions, try_catch, bind.
      rewrite auth_run, Hs, Hn, Hu, Ht.
      unfold dollar_transaction, bind.
      unfold apply_step_failure in Hfail.
      destruct (transaction_deleteMany ids (user_id user) w2)
        as [[[] | e1] w3].
      - destruct (failed_increment_ends_the_loop _ _ _ Hfail) as (w4 & Hrun).
        match goal with
        | |- context [for_of ?c ?b ?w0] =>
            change (for_of c b w0)
              with (for_of c (fun '(accountId, balanceChange) =>
                      account_increment_balance accountId balanceChange ;;;
                      ret tt) w0)
        end.
        rewrite Hrun. reflexivity.
      - injection Hfail as <-. reflexivity. }
    split; [exact Hf | exact (Hkeep e Hf)].
Qed.

(** The third storage call deletes t1 and t3, the fourth credits X, the
    fifth (the increment of Y) fails. *)
Lemma bulkDelete_failure_commits_nothing_witness :
  let w := set_faults [false; false; false; false; true] Sample.world in
  apply_step_failure ["t1"; "t3"] "u1"
    (accountBalanceChanges [Sample.t1; Sample.t3])
    (set_faults [false; false; true] Sample.world)
    = Some "storage failure" /\
  fst (bulkDeleteTransactions ["t1"; "t3"] w)
    = Normal (Failure "storage failure") /\
  db (snd (bulkDeleteTransactions ["t1"; "t3"] w)) = db w.
Proof.
  intros w. split; [reflexivity|].
  apply (proj2 (proj2 (bulkDelete_failure_commits_nothing ["t1"; "t3"] w))
               "clerk_alice" Sample.alice
               (set_faults [false; false; false; true] Sample.world)
               [Sample.t1; Sample.t3]
               (set_faults [false; false; true] Sample.world)
               "storage failure");
    reflexivity.
Defined.

(** C6 (ownership filter).  For every call of [bulkDeleteTransactions]: a
    transaction whose owner is not the caller is still in the table
    afterwards, whatever ids were requested; and the payload and every
    account row, balances included, are the same as if the database held
    no transaction of other users at all. *)
Theorem foreign_transactions_do_not_interfere ids w :
  (forall t,
     In t (transactions (db w)) ->
     (forall u, caller w = Some u -> transaction_userId t <> user_id u) ->
     In t (transactions (db (snd (bulkDeleteTransactions ids w))))) /\
  fst (bulkDeleteTransactions ids w)
    = fst (bulkDeleteTransactions ids (without_foreign w)) /\
  accounts (db (snd (bulkDeleteTransactions ids w)))
    = accounts (db (snd (bulkDeleteTransactions ids (without_foreign w)))).
Proof.
  split.
  - intros t Ht Hforeign.
    destruct (bulkDelete_outcome ids w) as [(e & _ & Hd) | (_ & u & Hc & Hts)].
    + rewrite Hd. exact Ht.
    + rewrite Hts. apply filter_In. split; [exact Ht|].
      unfold transaction_where.
      destruct (String.eqb (transaction_userId t) (user_id u)) eqn:E.
      * apply String.eqb_eq in E. elim (Hforeign u Hc E).
      * rewrite andb_false_r. reflexivity.
  - destruct (caller w) as [user|] eqn:Hc.
    + destruct (bulkDelete_sim user ids w (without_foreign w)
                  (agree_without_foreign w user Hc) Hc) as [Hr [Ha _]].
      split; [exact Hr|]. apply Ha.
    + unfold without_foreign. rewrite Hc. auto.
Qed.

(** Alice asks for t1 and for Bob's t4. *)
Lemma foreign_transactions_do_not_interfere_witness :
  In Sample.t4 (transactions (db Sample.world)) /\
  In Sample.t4
     (transactions
        (db (snd (bulkDeleteTransactions ["t1"; "t4"] Sample.world)))) /\
  fst (bulkDeleteTransactions ["t1"; "t4"] Sample.world)
    = fst (bulkDeleteTransactions ["t1"; "t4"]
             (without_foreign Sample.world)).
Proof.
  destruct (foreign_transactions_do_not_interfere ["t1"; "t4"] Sample.world)
    as (H1 & H2 & _).
  assert (In Sample.t4 (transactions (db Sample.world))) as Hin
    by (simpl; auto 6).
  split; [exact Hin|]. split; [| exact H2].
  apply H1; [exact Hin|].
  intros u [= <-]. discriminate.
Defined.

(** The request [["t4"; "nowhere"]] of Alice names a transaction of Bob
    and an id that does not exist: nothing resolves, and the call is
    reported as a success, not as a failure. *)
Lemma unowned_request_reports_success : ~ unresolvable_is_failure.
Proof.
  intros H.
  destruct (H ["t4"; "nowhere"] Sample.world Sample.alice) as [e He].
  - discriminate.
  - reflexivity.
  - reflexivity.
  - discriminate.
Qed.

(** C8 (fully unresolvable request), as amended.  When none of the
    requested ids resolves to a transaction of the caller and no storage
    call fails, [bulkDeleteTransactions] reports success and leaves the
    database unchanged. *)
Theorem unresolvable_request_reports_success ids w u :
  caller w = Some u ->
  faults w = [] ->
  filter (transaction_where ids (user_id u)) (transactions (db w)) = [] ->
  fst (bulkDeleteTransactions ids w) = Normal (Success tt) /\
  db (snd (bulkDeleteTransactions ids w)) = db w.
Proof.
  intros Hc Hf Hnone. apply caller_session in Hc. destruct Hc as [Hs Hu].
  unfold bulkDeleteTransactions, try_catch, bind. rewrite auth_run, Hs.
  unfold user_findUnique. rewrite storage_quiet by assumption. simpl.
  rewrite Hu, set_db_same.
  unfold transaction_findMany. rewrite storage_quiet by assumption. simpl.
  rewrite Hnone, set_db_same. simpl.
  unfold dollar_transaction, bind, transaction_deleteMany.
  rewrite storage_quiet by assumption. simpl.
  rewrite filter_none_negb by assumption.
  split; [reflexivity|]. destruct (db w); reflexivity.
Qed.

Lemma unresolvable_request_reports_success_witness :
  fst (bulkDeleteTransactions ["t4"; "nowhere"] Sample.world)
    = Normal (Success tt) /\
  db (snd (bulkDeleteTransactions ["t4"; "nowhere"] Sample.world))
    = db Sample.world.
Proof.
  apply (unresolvable_request_reports_success _ _ Sample.alice);
    reflexivity.
Defined.

(** ** Amount arithmetic (C5) *)

(** C5 (exact decimal arithmetic), evaluated where the code breaks it.
    Account X of Alice (balance 100.00) has the expense t1 of 10.00 and
    the income t6 of 5.00, and Alice deletes both.  The exact decimal sum
    of the two reversal deltas is 10.00 - 5.00 = 5.00.  The reducer does
    not add decimals: it combines a Decimal object and a number with
    [+].  With t1 first in the table it builds the text "010-5", which
    is no amount; the store rejects the increment and the call fails.
    With t6 first it builds the text "-510"; the store reads -510 and X
    ends at -410.00 instead of 105.00, the call reporting success. *)
Theorem bulkDelete_expense_and_income_on_one_account :
  let expense_first := mixed_world [Sample.t1; t6] in
  let income_first := mixed_world [t6; Sample.t1] in
  accountBalanceChanges [Sample.t1; t6] = [("X", JStr "010-5")] /\
  decimal_input (JStr "010-5") = None /\
  fst (bulkDeleteTransactions ["t1"; "t6"] expense_first)
    = Normal (Failure "Invalid value provided. Expected Decimal.") /\
  db (snd (bulkDeleteTransactions ["t1"; "t6"] expense_first))
    = db expense_first /\
  accountBalanceChanges [t6; Sample.t1] = [("X", JStr "-510")] /\
  fst (bulkDeleteTransactions ["t1"; "t6"] income_first)
    = Normal (Success tt) /\
  balance_of "X" (db (snd (bulkDeleteTransactions ["t1"; "t6"] income_first)))
    = Some (Dec.cents (-41000)) /\
  Dec.add (reversal_delta Sample.t1) (reversal_delta t6) = Dec.cents 500 /\
  Dec.add (account_balance Sample.X)
          (Dec.add (reversal_delta Sample.t1) (reversal_delta t6))
    = Dec.cents 10500 /\
  ~ Dec.eqv (Dec.cents (-41000)) (Dec.cents 10500).
Proof. repeat split; try reflexivity. vm_compute. discriminate. Qed.

(** ** Account creation and default switch (C7, C9) *)

(** C7 (first-account defaulting).  If [createAccount] succeeds, the row
    it inserted belongs to the caller, and its [isDefault] is [true] when
    the caller owned no account before the call, whatever flag was
    requested, and is the requested flag (the column default for an
    absent one) when the caller already owned accounts. *)
Theorem created_account_default_flag data w s w' :
  createAccount data w = (Normal (Success s), w') ->
  exists u row,
    caller w = Some u /\
    s = serializeTransaction row /\
    In row (accounts (db w')) /\
    account_userId row = user_id u /\
    account_isDefault row =
      match filter (fun a => String.eqb (account_userId a) (user_id u))
                   (accounts (db w)) with
      | [] => true
      | _ => requested_flag (data_isDefault data)
      end.
Proof.
  intros H. apply createAccount_success in H.
  destruct H as (u & row & bf & Hc & _ & Hs & Hu & _ & Hd & Hacc).
  exists u, row. repeat (split; [assumption|]).
  split; [rewrite Hacc; apply in_or_app; right; left; reflexivity|].
  split; [assumption|].
  rewrite Hd. destruct (filter _ _); reflexivity.
Qed.

(** Carol's first account, requested with [isDefault: false]. *)
Lemma created_account_default_flag_witness :
  let data := mkAccountData "first" "CURRENT" "0" (Some false) in
  createAccount data Sample.carol_world
    = (Normal (Success (serializeTransaction
                          (mkAccount "N" "u3" "first" CURRENT
                                     (mkDecimal 0 0) true))),
       snd (createAccount data Sample.carol_world)) /\
  exists row,
    In row (accounts (db (snd (createAccount data Sample.carol_world)))) /\
    account_userId row = "u3" /\
    account_isDefault row = true.
Proof.
  intros data. split; [reflexivity|].
  destruct (created_account_default_flag data Sample.carol_world
              (serializeTransaction
                 (mkAccount "N" "u3" "first" CURRENT (mkDecimal 0 0) true))
              (snd (createAccount data Sample.carol_world)) eq_refl)
    as (u & row & Hc & _ & Hin & Hu & Hd).
  injection Hc as <-. exists row. auto.
Defined.

(** Alice already owns accounts: the flag she asks for is the flag of the
    new row, and asking for the default moves it. *)
Example requested_flag_is_honoured :
  accounts (db (snd (createAccount
                       (mkAccountData "trip" "SAVINGS" "12.50" (Some false))
                       Sample.world)))
    = [Sample.X; Sample.Y; Sample.B;
       mkAccount "N" "u1" "trip" SAVINGS (mkDecimal 1250 2) false] /\
  accounts (db (snd (createAccount
                       (mkAccountData "trip" "SAVINGS" "12.50" (Some true))
                       Sample.world)))
    = [set_isDefault false Sample.X; Sample.Y; Sample.B;
       mkAccount "N" "u1" "trip" SAVINGS (mkDecimal 1250 2) true].
Proof. split; reflexivity. Qed.

(** C9 (idempotent default switch).  When [a] is the caller's one default
    account, account ids are unique and no storage call fails,
    [updateDefaultAccount] on the id of [a] returns success with the data
    of [a] and leaves the database unchanged. *)
Theorem default_switch_is_idempotent accountId w u a :
  caller w = Some u ->
  faults w = [] ->
  NoDup (map account_id (accounts (db w))) ->
  defaults_of (user_id u) (db w) = [a] ->
  account_id a = accountId ->
  fst (updateDefaultAccount accountId w) = Normal (Success (serializeDecimal a)) /\
  db (snd (updateDefaultAccount accountId w)) = db w.
Proof.
  intros Hc Hf Hnd Hd <-. apply caller_session in Hc. destruct Hc as [Hs Hu].
  destruct (clear_then_set_restores (user_id u) a (accounts (db w)) Hnd Hd)
    as [Hfind Hupd].
  assert (account_isDefault a = true) as Ha.
  { assert (In a (defaults_of (user_id u) (db w))) as Hin
      by (rewrite Hd; left; reflexivity).
    apply filter_In in Hin. destruct Hin as [_ Hin].
    apply is_default_of_spec in Hin. tauto. }
  unfold updateDefaultAccount, try_catch, bind. rewrite auth_run, Hs.
  unfold user_findUnique. rewrite storage_quiet by assumption. simpl.
  rewrite Hu, set_db_same.
  unfold account_unset_defaults. rewrite storage_quiet by assumption. simpl.
  unfold account_set_default. rewrite storage_quiet by (destruct w; assumption).
  unfold account_update_row. simpl. rewrite Hfind. simpl.
  rewrite Hupd, set_isDefault_restore by assumption.
  split; [reflexivity|]. destruct (db w); reflexivity.
Qed.

Lemma default_switch_is_idempotent_witness :
  fst (updateDefaultAccount "X" Sample.world)
    = Normal (Success (serializeDecimal Sample.X)) /\
  db (snd (updateDefaultAccount "X" Sample.world)) = db Sample.world.
Proof.
  apply (default_switch_is_idempotent "X" Sample.world Sample.alice Sample.X);
    try reflexivity.
  simpl. repeat constructor; simpl; intuition discriminate.
Defined.

(** ** Reading the accounts (C10) *)

(** Alice is signed in and has a user record; the user lookup fails in
    the store and [getUserAccounts] raises, with neither the session nor
    the user record missing. *)
Lemma failed_user_lookup_raises : ~ raises_only_without_user.
Proof.
  intros H.
  destruct (H (set_faults [true] Sample.world) "storage failure" eq_refl)
    as [H1 | H1]; discriminate.
Qed.

(** C10 (read failure swallowed), as amended.  [getUserAccounts] raises
    exactly when the caller is unauthenticated, the user lookup itself
    fails in the store, or no user record matches.  When the user is
    resolved and the account query fails, it returns [undefined], logs
    the error's message and changes nothing. *)
Theorem getUserAccounts_failures w :
  ((exists e, fst (getUserAccounts w) = Throw e) <->
   not_userId (session w) = true \/ hd false (faults w) = true \/
   caller w = None) /\
  (caller w <> None ->
   hd false (faults w) = false ->
   hd false (tl (faults w)) = true ->
   fst (getUserAccounts w) = Normal None /\
   console (snd (getUserAccounts w)) = (console w ++ ["storage failure"])%list /\
   db (snd (getUserAccounts w)) = db w).
Proof.
  destruct w as [s sh d f u c r].
  unfold getUserAccounts, caller, bind, auth, user_findUnique, try_catch,
    account_findMany_with_count, storage, console_error, ret, throw.
  simpl.
  destruct (not_userId s) eqn:Hs; simpl.
  { split; [| intros H; now elim H].
    split; [auto | intros _; eexists; reflexivity]. }
  destruct f as [| [] [| [] f]]; simpl;
    destruct (find _ (users d)) as [user|]; simpl;
    (split;
     [ split;
       [ intros [e He]; try discriminate; auto
       | intros [H | [H | H]]; try discriminate; eexists; reflexivity ]
     | intros H1 H2 H3; try discriminate; try (now elim H1); auto ]).
Qed.

Lemma getUserAccounts_failures_witness :
  let w := set_faults [false; true] Sample.world in
  fst (getUserAccounts w) = Normal None /\
  console (snd (getUserAccounts w)) = ["storage failure"] /\
  db (snd (getUserAccounts w)) = db w.
Proof.
  apply (proj2 (getUserAccounts_failures
                  (set_faults [false; true] Sample.world)));
    [discriminate | reflexivity | reflexivity].
Defined.

(** * The scenarios of the specification *)

(** Scenario A: X at 100.00, one expense of 30.00 deleted, X at 130.00. *)
Example scenario_A :
  balance_of "X" (db (snd (bulkDeleteTransactions ["t2"] Sample.world)))
    = Some (Dec.cents 13000).
Proof. reflexivity. Qed.

(** Scenario B: Y at 50.00, one income of 20.00 deleted, Y at 30.00. *)
Example scenario_B :
  balance_of "Y" (db (snd (bulkDeleteTransactions ["t5"] Sample.world)))
    = Some (Dec.cents 3000).
Proof. reflexivity. Qed.

(** Scenario C: an expense of 10.00 on X and an income of 5.00 on Y in
    one call. *)
Example scenario_C :
  let d := db (snd (bulkDeleteTransactions ["t1"; "t3"] Sample.world)) in
  balance_of "X" d = Some (Dec.cents 11000) /\
  balance_of "Y" d = Some (Dec.cents 4500) /\
  transactions d = [Sample.t2; Sample.t4; Sample.t5].
Proof. repeat split; reflexivity. Qed.

(** Scenario D: accounts X (default) and Y; the default is switched to Y. *)
Example scenario_D :
  accounts (db (snd (updateDefaultAccount "Y" Sample.world)))
    = [set_isDefault false Sample.X; set_isDefault true Sample.Y; Sample.B].
Proof. reflexivity. Qed.

(** Scenario E: the first account of a user, requested as non-default. *)
Example scenario_E :
  fst (createAccount (mkAccountData "first" "CURRENT" "0" (Some false))
                     Sample.carol_world)
    = Normal (Success (mkSerializedAccount "N" "u3" "first" CURRENT
                         (JNum (mkDecimal 0 0)) true)).
Proof. reflexivity. Qed.

(** * Further properties of the actions *)

(** ** Rules for [hoare] *)

Lemma hoare_ret {A} (P : World -> Prop) (a : A) Qn Qt :
  (forall w, P w -> Qn a w) -> hoare P (ret a) Qn Qt.
Proof. intros H w Hw. simpl. auto. Qed.

Lemma hoare_throw {A} (P : World -> Prop) e (Qn : A -> World -> Prop) Qt :
  (forall w, P w -> Qt e w) -> hoare P (throw e) Qn Qt.
Proof. intros H w Hw. simpl. auto. Qed.

Lemma hoare_bind {A B} P (m : Action A) (k : A -> Action B) Qn Rn Qt :
  hoare P m Qn Qt ->
  (forall a, hoare (Qn a) (k a) Rn Qt) ->
  hoare P (bind m k) Rn Qt.
Proof.
  intros Hm Hk w Hw. specialize (Hm w Hw). unfold bind.
  destruct (m w) as [[a | e] w1]; [apply (Hk a w1 Hm) | exact Hm].
Qed.

Lemma hoare_try_catch {A} P (body : Action A) handler Qn Qt Rt :
  hoare P body Qn Qt ->
  (forall e, hoare (Qt e) (handler e) Qn Rt) ->
  hoare P (try_catch body handler) Qn Rt.
Proof.
  intros Hb Hh w Hw. specialize (Hb w Hw). unfold try_catch.
  destruct (body w) as [[a | e] w1]; [exact Hb | apply (Hh e w1 Hb)].
Qed.

Lemma hoare_dollar_transaction {A} P (body : Action A) Qn Qt :
  (forall d0,
     hoare (fun w => P w /\ db w = d0) body Qn
           (fun e w' => Qt e (set_db d0 w'))) ->
  hoare P (dollar_transaction body) Qn Qt.
Proof.
  intros Hb w Hw. specialize (Hb (db w) w (conj Hw eq_refl)).
  unfold dollar_transaction. destruct (body w) as [[a | e] w1]; exact Hb.
Qed.

Lemma set_faults_same w : set_faults (faults w) w = w.
Proof. destruct w; reflexivity. Qed.

Lemma hoare_storage {A} P (op : Db -> Completion A * Db) Qn Qt :
  (forall w f, P w -> Qt "storage failure" (set_faults f w)) ->
  (forall w f, P w ->
     match op (db w) with
     | (Normal a, d) => Qn a (set_db d (set_faults f w))
     | (Throw e, d) => Qt e (set_db d (set_faults f w))
     end) ->
  hoare P (storage op) Qn Qt.
Proof.
  intros Hf Hop w Hw. unfold storage.
  destruct (faults w) as [| [] f] eqn:E.
  - specialize (Hop w [] Hw). destruct (op (db w)) as [r d].
    rewrite <- E, set_faults_same in Hop. exact Hop.
  - apply Hf, Hw.
  - specialize (Hop w f Hw). destruct (op (db w)) as [r d]. exact Hop.
Qed.

Lemma hoare_for_of {A} (I : World -> Prop) (l : list A) body Qt :
  (forall x, hoare I (body x) (fun _ => I) Qt) ->
  hoare I (for_of l body) (fun _ => I) Qt.
Proof.
  intros Hb. induction l as [| x l IH]; simpl.
  - apply hoare_ret. auto.
  - eapply hoare_bind; [apply Hb | intros a; exact IH].
Qed.

Lemma hoare_consequence {A} (P P' : World -> Prop) (m : Action A)
  (Qn Qn' : A -> World -> Prop) (Qt Qt' : string -> World -> Prop) :
  hoare P m Qn Qt ->
  (forall w, P' w -> P w) ->
  (forall a w, Qn a w -> Qn' a w) ->
  (forall e w, Qt e w -> Qt' e w) ->
  hoare P' m Qn' Qt'.
Proof.
  intros H HP Hn Ht w Hw. specialize (H w (HP w Hw)).
  destruct (m w) as [[a | e] w1]; auto.
Qed.

(** Reading the session, the limiter and the caches. *)
Lemma hoare_auth (P : World -> Prop) Qt :
  hoare P auth (fun a w => P w /\ a = session w) Qt.
Proof. intros w Hw. simpl. auto. Qed.

Lemma hoare_protect (P : World -> Prop) Qt :
  hoare P protect (fun a w => P w /\ a = shield w) Qt.
Proof. intros w Hw. simpl. auto. Qed.

(** A storage call keeps every property of the database that its
    operation keeps. *)
Lemma hoare_storage_keeps {A} (F : Db -> Prop) (op : Db -> Completion A * Db) :
  (forall d, F d -> F (snd (op d))) ->
  hoare (fun w => F (db w)) (storage op)
        (fun _ w => F (db w)) (fun _ w => F (db w)).
Proof.
  intros Hop. apply hoare_storage.
  - intros w f Hw. destruct w; exact Hw.
  - intros w f Hw. specialize (Hop (db w) Hw).
    destruct (op (db w)) as [[a | e] d]; exact Hop.
Qed.

Lemma hoare_storage_keeps_weak {A} (F F' : Db -> Prop)
  (op : Db -> Completion A * Db) :
  (forall d, F d -> F (snd (op d))) ->
  (forall d, F d -> F' d) ->
  hoare (fun w => F (db w)) (storage op)
        (fun _ w => F (db w)) (fun _ w => F' (db w)).
Proof.
  intros Hop HF.
  eapply hoare_consequence with
    (P := fun w => F (db w)) (Qn := fun _ w => F (db w))
    (Qt := fun _ w => F (db w));
    [apply hoare_storage_keeps, Hop | auto | auto | intros e w; apply HF].
Qed.

Lemma hoare_revalidatePath_keeps (F : Db -> Prop) path Qt :
  hoare (fun w => F (db w)) (revalidatePath path) (fun _ w => F (db w)) Qt.
Proof. intros w Hw. exact Hw. Qed.

(** ** What [bulkDeleteTransactions] leaves alone *)

(** A property of the database kept by the deletion and by every balance
    increment is kept by the whole action. *)
Lemma bulkDelete_keeps (F : Db -> Prop) ids :
  (forall d userId,
     F d ->
     F (mkDb (users d) (accounts d)
             (filter (fun t => negb (transaction_where ids userId t))
                     (transactions d)))) ->
  (forall d id delta,
     F d ->
     F (snd (account_update_row
               (fun a => String.eqb (account_id a) id)
               (fun a => set_balance (Dec.add (account_balance a) delta) a)
               d))) ->
  hoare (fun w => F (db w)) (bulkDeleteTransactions ids)
        (fun _ w => F (db w)) (fun _ w => F (db w)).
Proof.
  intros Hdel Hinc. unfold bulkDeleteTransactions.
  apply hoare_try_catch with (Qt := fun _ w => F (db w));
    [| intros e; apply hoare_ret; auto].
  eapply hoare_bind; [apply hoare_auth|]. intros userId.
  destruct (not_userId userId); [apply hoare_throw; tauto|].
  apply hoare_bind with (Qn := fun _ w => F (db w)).
  { eapply hoare_consequence with (P := fun w => F (db w));
      [apply (hoare_storage_keeps F); auto | tauto | auto | auto]. }
  intros [user|]; [| apply hoare_throw; auto].
  eapply hoare_bind; [apply (hoare_storage_keeps F); auto|].
  intros transactions. cbv zeta.
  eapply hoare_bind.
  { apply hoare_dollar_transaction with (Qn := fun _ w => F (db w)).
    intros d0.
    eapply hoare_consequence with
      (P := fun w => F (db w) /\ F d0)
      (Qn := fun _ w => F (db w) /\ F d0)
      (Qt := fun _ w => F (db w) /\ F d0).
    - eapply hoare_bind.
      + apply (hoare_storage_keeps (fun d => F d /\ F d0)).
        intros d [H1 H2]. simpl. split; [apply Hdel, H1 | exact H2].
      + intros []. apply hoare_for_of. intros [id v].
        apply hoare_bind with (Qn := fun _ w => F (db w) /\ F d0);
          [| intros a; apply hoare_ret; intros w0 H0; exact H0].
        apply (hoare_storage_keeps (fun d => F d /\ F d0)).
        intros d [H1 H2]. split; [| exact H2].
        destruct (decimal_input v); [apply Hinc, H1 | exact H1].
    - intros w [H1 H2]. subst d0. auto.
    - tauto.
    - intros e w [_ H2]. destruct w; exact H2. }
  intros [].
  eapply hoare_bind; [apply hoare_revalidatePath_keeps|]. intros [].
  eapply hoare_bind; [apply hoare_revalidatePath_keeps|]. intros [].
  apply hoare_ret. auto.
Qed.

Lemma update_first_map {A B} (g : A -> B) (p : A -> bool) (f : A -> A) l :
  (forall x, g (f x) = g x) ->
  map g (update_first p f l) = map g l.
Proof.
  intros H. induction l as [| x l IH]; simpl; auto.
  destruct (p x); simpl; [rewrite H | rewrite IH]; reflexivity.
Qed.

(** X2.  Whatever the request and whatever fails, [bulkDeleteTransactions]
    leaves the users alone and changes no account except in its
    balance. *)
Theorem bulkDelete_changes_balances_only ids w :
  users (db (snd (bulkDeleteTransactions ids w))) = users (db w) /\
  map without_balance (accounts (db (snd (bulkDeleteTransactions ids w))))
    = map without_balance (accounts (db w)).
Proof.
  pose proof (bulkDelete_keeps
    (fun d => users d = users (db w) /\
              map without_balance (accounts d)
                = map without_balance (accounts (db w))) ids) as H.
  assert (Hh : hoare
    (fun w0 => users (db w0) = users (db w) /\
               map without_balance (accounts (db w0))
                 = map without_balance (accounts (db w)))
    (bulkDeleteTransactions ids)
    (fun _ w0 => users (db w0) = users (db w) /\
               map without_balance (accounts (db w0))
                 = map without_balance (accounts (db w)))
    (fun _ w0 => users (db w0) = users (db w) /\
               map without_balance (accounts (db w0))
                 = map without_balance (accounts (db w)))).
  { apply H.
    - intros d userId Hd. exact Hd.
    - intros d id delta [H1 H2]. unfold account_update_row.
      destruct (find _ (accounts d)); simpl; [| auto].
      split; [exact H1|]. rewrite update_first_map; auto. }
  specialize (Hh w (conj eq_refl eq_refl)).
  destruct (bulkDeleteTransactions ids w) as [[a | e] w1]; exact Hh.
Qed.

Lemma hoare_for_of_in {A} (I : World -> Prop) (l : list A) body Qt :
  (forall x, In x l -> hoare I (body x) (fun _ => I) Qt) ->
  hoare I (for_of l body) (fun _ => I) Qt.
Proof.
  induction l as [| x l IH]; simpl; intros Hb.
  - apply hoare_ret. auto.
  - eapply hoare_bind; [apply Hb; auto | intros a; apply IH; auto].
Qed.

Lemma obj_set_keys o k v k' v' :
  In (k', v') (obj_set o k v) -> k' = k \/ In k' (map fst o).
Proof.
  induction o as [| [k0 v0] o IH]; simpl.
  - intros [[= <- <-] | []]. auto.
  - destruct (String.eqb k0 k) eqn:E; simpl.
    + intros [[= <- <-] | H]; [right; left; reflexivity|].
      right. right. apply (in_map fst) in H. exact H.
    + intros [[= <- <-] | H]; [right; left; reflexivity|].
      destruct (IH H); auto.
Qed.

(** Every key of the reducer's object is the account of one of the
    transactions it was given. *)
Lemma changes_keys ts : forall acc k,
  In k (map fst (fold_left accumulate ts acc)) ->
  In k (map fst acc) \/ In k (map transaction_accountId ts).
Proof.
  induction ts as [| t ts IH]; simpl; intros acc k H; auto.
  destruct (IH _ _ H) as [H1 | H1]; auto.
  apply in_map_iff in H1. destruct H1 as ([k' v'] & <- & H1).
  unfold accumulate in H1. apply obj_set_keys in H1. simpl.
  destruct H1 as [-> | H1]; auto.
Qed.

Lemma in_update_first_other {A} (p : A -> bool) (f : A -> A) l y :
  In y l -> p y = false -> In y (update_first p f l).
Proof.
  induction l as [| x l IH]; simpl; auto.
  intros [-> | H] Hp.
  - rewrite Hp. left. reflexivity.
  - destruct (p x); simpl; auto.
Qed.

(** X3.  An account that none of the caller's requested transactions is
    linked to comes out of [bulkDeleteTransactions] as it went in. *)
Theorem bulkDelete_leaves_other_accounts ids w a :
  In a (accounts (db w)) ->
  (forall u t,
     caller w = Some u ->
     In t (transactions (db w)) ->
     transaction_where ids (user_id u) t = true ->
     transaction_accountId t <> account_id a) ->
  In a (accounts (db (snd (bulkDeleteTransactions ids w)))).
Proof.
  intros Ha Hother.
  set (I := fun w0 => In a (accounts (db w0))).
  set (P := fun w0 => I w0 /\ session w0 = session w /\
                      users (db w0) = users (db w) /\
                      transactions (db w0) = transactions (db w)).
  assert (Hh : hoare P (bulkDeleteTransactions ids)
                     (fun _ => I) (fun _ => I)).
  { unfold bulkDeleteTransactions.
    apply hoare_try_catch with (Qt := fun _ => I);
      [| intros e; apply hoare_ret; auto].
    eapply hoare_bind; [apply hoare_auth|]. intros userId.
    destruct (not_userId userId) eqn:Es;
      [apply hoare_throw; unfold P; tauto|].
    apply hoare_bind with
      (Qn := fun user w0 => P w0 /\ (user <> None -> caller w = user)).
    { apply hoare_storage.
      - intros w0 f [[H _] _]. destruct w0; exact H.
      - intros w0 f [(H1 & H2 & H3 & H4) ->]. simpl.
        split; [destruct w0; unfold P, I; simpl in *; auto|].
        intros _. unfold caller. rewrite <- H2, Es, <- H3. reflexivity. }
    intros [user|]; [| apply hoare_throw; unfold P; tauto].
    apply hoare_bind with
      (Qn := fun ts w0 =>
         I w0 /\ caller w = Some user /\
         ts = filter (transaction_where ids (user_id user))
                     (transactions (db w))).
    { apply hoare_storage.
      - intros w0 f [[H _] _]. destruct w0; exact H.
      - intros w0 f [(H1 & H2 & H3 & H4) Hc]. simpl.
        split; [destruct w0; exact H1|].
        split; [apply Hc; discriminate | now rewrite H4]. }
    intros ts. cbv zeta.
    apply hoare_bind with (Qn := fun _ => I).
    { apply hoare_dollar_transaction. intros d0.
      apply hoare_consequence with
        (P := fun w0 => (I w0 /\ In a (accounts d0)) /\
                        caller w = Some user /\
                        ts = filter (transaction_where ids (user_id user))
                                    (transactions (db w)))
        (Qn := fun _ w0 =>
                 (I w0 /\ In a (accounts d0)) /\
                 caller w = Some user /\
                 ts = filter (transaction_where ids (user_id user))
                             (transactions (db w)))
        (Qt := fun _ w0 => In a (accounts d0)).
      - eapply hoare_bind.
        + apply hoare_storage.
          * intros w0 f [[_ H] _]. exact H.
          * intros w0 f [[H1 H2] H3]. simpl.
            instantiate (1 := fun _ w0 =>
              (I w0 /\ In a (accounts d0)) /\
              caller w = Some user /\
              ts = filter (transaction_where ids (user_id user))
                          (transactions (db w))).
            simpl. destruct w0; unfold I in *; simpl in *; auto.
        + intros []. apply hoare_for_of_in. intros [k v] Hk.
          apply hoare_bind with
            (Qn := fun _ w0 =>
               (I w0 /\ In a (accounts d0)) /\
               caller w = Some user /\
               ts = filter (transaction_where ids (user_id user))
                           (transactions (db w)));
            [| intros r; apply hoare_ret; intros w0 H0; exact H0].
          apply hoare_storage.
          * intros w0 f [[_ H] _]. exact H.
          * intros w0 f [[H1 H2] [H3 H4]].
            assert (String.eqb (account_id a) k = false) as Hak.
            { apply String.eqb_neq. intros <-.
              apply (in_map fst) in Hk. simpl in Hk.
              apply changes_keys in Hk. destruct Hk as [[] | Hk].
              apply in_map_iff in Hk. destruct Hk as (t & Ht & Hin).
              rewrite H4 in Hin. apply filter_In in Hin.
              apply (Hother user t H3 (proj1 Hin) (proj2 Hin) Ht). }
            destruct (decimal_input v) as [delta|]; simpl.
            -- unfold account_update_row.
               destruct (find _ (accounts (db w0))); simpl.
               ++ split; [| auto]. split; [| exact H2].
                  unfold I. destruct w0. simpl in *.
                  apply in_update_first_other; assumption.
               ++ exact H2.
            -- exact H2.
      - intros w0 [[H1 [H2 H3]] <-]. auto.
      - intros r w0 [[H _] _]. exact H.
      - intros e w0 H. destruct w0; exact H. }
    intros [].
    apply hoare_bind with (Qn := fun _ => I);
      [intros w0 Hw0; exact Hw0|]. intros [].
    apply hoare_bind with (Qn := fun _ => I);
      [intros w0 Hw0; exact Hw0|]. intros [].
    apply hoare_ret. auto. }
  specialize (Hh w). unfold P, I in Hh.
  destruct (bulkDeleteTransactions ids w) as [[r | e] w1];
    apply Hh; auto.
Qed.

(** ** Cache invalidation *)

(** A storage call keeps whatever depends neither on the database nor on
    the failures still to come. *)
Lemma hoare_storage_env {A} (Q : World -> Prop) (op : Db -> Completion A * Db) :
  (forall w d f, Q w -> Q (set_db d (set_faults f w))) ->
  hoare Q (storage op) (fun _ => Q) (fun _ => Q).
Proof.
  intros HQ. apply hoare_storage.
  - intros w f Hw. specialize (HQ w (db w) f Hw).
    destruct w; exact HQ.
  - intros w f Hw. destruct (op (db w)) as [[a | e] d]; apply HQ, Hw.
Qed.

Lemma hoare_account_create_env (Q : World -> Prop) name type balance userId
  isDefault :
  (forall w d f, Q w -> Q (set_db d (set_faults f w))) ->
  hoare Q (account_create name type balance userId isDefault)
        (fun _ => Q) (fun _ => Q).
Proof.
  intros HQ w Hw. unfold account_create.
  match goal with
  | |- context [storage ?op w] => exact (hoare_storage_env Q op HQ w Hw)
  end.
Qed.

(** X4.  The three writing actions mark paths stale exactly when they
    succeed: [bulkDeleteTransactions] the dashboard and the account page,
    the two others the dashboard; after a failure or a throw the list of
    stale paths is as it was. *)
Theorem paths_revalidated_on_success_only w :
  (forall ids,
     revalidated (snd (bulkDeleteTransactions ids w))
       = (revalidated w ++
          if succeeded (fst (bulkDeleteTransactions ids w))
          then ["/dashboard"; "/account/[id]"] else [])%list) /\
  (forall accountId,
     revalidated (snd (updateDefaultAccount accountId w))
       = (revalidated w ++
          if succeeded (fst (updateDefaultAccount accountId w))
          then ["/dashboard"] else [])%list) /\
  (forall data,
     revalidated (snd (createAccount data w))
       = (revalidated w ++
          if succeeded (fst (createAccount data w))
          then ["/dashboard"] else [])%list).
Proof.
  set (Q := fun w0 => revalidated w0 = revalidated w).
  assert (HQ : forall w0 d f, Q w0 -> Q (set_db d (set_faults f w0)))
    by (intros w0 d f H; exact H).
  split; [| split].
  - intros ids.
    assert (Hh : hoare Q (bulkDeleteTransactions ids)
      (fun p w0 => revalidated w0
         = (revalidated w ++
            if succeeded (Normal p)
            then ["/dashboard"; "/account/[id]"] else [])%list)
      (fun _ _ => False)).
    { unfold bulkDeleteTransactions.
      apply hoare_try_catch with (Qt := fun _ => Q);
        [| intros e; apply hoare_ret; intros w0 H0; simpl;
           rewrite app_nil_r; exact H0].
      apply hoare_bind with (Qn := fun _ => Q); [intros w0 H0; exact H0|].
      intros userId. destruct (not_userId userId); [apply hoare_throw; auto|].
      apply hoare_bind with (Qn := fun _ => Q);
        [apply hoare_storage_env, HQ|].
      intros [user|]; [| apply hoare_throw; auto].
      apply hoare_bind with (Qn := fun _ => Q);
        [apply hoare_storage_env, HQ|].
      intros ts. cbv zeta.
      apply hoare_bind with (Qn := fun _ => Q).
      { apply hoare_dollar_transaction. intros d0.
        apply hoare_consequence with (P := Q) (Qn := fun _ => Q)
                                     (Qt := fun _ => Q);
          [| tauto | auto | intros e w0 H0; exact H0].
        apply hoare_bind with (Qn := fun _ => Q);
          [apply hoare_storage_env, HQ|].
        intros []. apply hoare_for_of. intros [k v].
        apply hoare_bind with (Qn := fun _ => Q);
          [apply hoare_storage_env, HQ | intros r; apply hoare_ret; auto]. }
      intros [].
      apply hoare_bind with
        (Qn := fun _ w0 => revalidated w0
                 = (revalidated w ++ ["/dashboard"])%list);
        [intros w0 H0; simpl; unfold Q in H0; now rewrite H0|].
      intros [].
      apply hoare_bind with
        (Qn := fun _ w0 => revalidated w0
                 = (revalidated w ++ ["/dashboard"; "/account/[id]"])%list);
        [intros w0 H0; simpl; rewrite H0, <- app_assoc; reflexivity|].
      intros []. apply hoare_ret. auto. }
    specialize (Hh w eq_refl).
    destruct (bulkDeleteTransactions ids w) as [[p | e] w1];
      [exact Hh | contradiction].
  - intros accountId.
    assert (Hh : hoare Q (updateDefaultAccount accountId)
      (fun p w0 => revalidated w0
         = (revalidated w ++
            if succeeded (Normal p) then ["/dashboard"] else [])%list)
      (fun _ _ => False)).
    { unfold updateDefaultAccount.
      apply hoare_try_catch with (Qt := fun _ => Q);
        [| intros e; apply hoare_ret; intros w0 H0; simpl;
           rewrite app_nil_r; exact H0].
      apply hoare_bind with (Qn := fun _ => Q); [intros w0 H0; exact H0|].
      intros userId. destruct (not_userId userId); [apply hoare_throw; auto|].
      apply hoare_bind with (Qn := fun _ => Q);
        [apply hoare_storage_env, HQ|].
      intros [user|]; [| apply hoare_throw; auto].
      apply hoare_bind with (Qn := fun _ => Q);
        [apply hoare_storage_env, HQ|].
      intros [].
      apply hoare_bind with (Qn := fun _ => Q);
        [apply hoare_storage_env, HQ|].
      intros account.
      apply hoare_bind with
        (Qn := fun _ w0 => revalidated w0
                 = (revalidated w ++ ["/dashboard"])%list);
        [intros w0 H0; simpl; unfold Q in H0; now rewrite H0|].
      intros []. apply hoare_ret. auto. }
    specialize (Hh w eq_refl).
    destruct (updateDefaultAccount accountId w) as [[p | e] w1];
      [exact Hh | contradiction].
  - intros data.
    assert (Hh : hoare Q (createAccount data)
      (fun p w0 => revalidated w0
         = (revalidated w ++
            if succeeded (Normal p) then ["/dashboard"] else [])%list)
      (fun _ => Q)).
    { unfold createAccount.
      apply hoare_try_catch with (Qt := fun _ => Q);
        [| intros e; apply hoare_throw; auto].
      apply hoare_bind with (Qn := fun _ => Q); [intros w0 H0; exact H0|].
      intros userId. destruct (not_userId userId); [apply hoare_throw; auto|].
      apply hoare_bind with (Qn := fun _ => Q); [intros w0 H0; exact H0|].
      intros [| |].
      2:{ apply hoare_bind with (Qn := fun _ => Q);
            [intros w0 H0; exact H0 | intros []; apply hoare_throw; auto]. }
      2:{ apply hoare_throw; auto. }
      apply hoare_bind with (Qn := fun _ => Q);
        [apply hoare_storage_env, HQ|].
      intros [user|]; [| apply hoare_throw; auto].
      cbv zeta. destruct (isNaN (parseFloat (data_balance data)));
        [apply hoare_throw; auto|].
      apply hoare_bind with (Qn := fun _ => Q);
        [apply hoare_storage_env, HQ|].
      intros existingAccounts. cbv zeta.
      apply hoare_bind with (Qn := fun _ => Q).
      { destruct (flag_truthy _);
          [apply hoare_storage_env, HQ | apply hoare_ret; auto]. }
      intros [].
      apply hoare_bind with (Qn := fun _ => Q);
        [apply hoare_account_create_env, HQ|].
      intros account.
      apply hoare_bind with
        (Qn := fun _ w0 => revalidated w0
                 = (revalidated w ++ ["/dashboard"])%list);
        [intros w0 H0; simpl; unfold Q in H0; now rewrite H0|].
      intros []. apply hoare_ret. auto. }
    specialize (Hh w eq_refl).
    destruct (createAccount data w) as [[p | e] w1]; simpl;
      [exact Hh | rewrite app_nil_r; exact Hh].
Qed.

(** ** Callers without a session or without a user record *)

(** X5.  For a caller without a session no action reads the store, asks the
    limiter, logs or invalidates anything: the world is left as it is.
    The two actions that report return a failure payload, the four
    others throw. *)
Theorem unauthenticated_caller_stops_every_action date w :
  not_userId (session w) = true ->
  (forall ids,
     bulkDeleteTransactions ids w = (Normal (Failure "Unauthorized"), w)) /\
  (forall accountId,
     updateDefaultAccount accountId w
       = (Normal (Failure "Unauthorized"), w)) /\
  (forall data, createAccount data w = (Throw "Unauthorized", w)) /\
  getUserAccounts w = (Throw "Unauthorized", w) /\
  (forall accountId,
     getAccountWithTransactions date accountId w
       = (Throw "Unauthorized", w)) /\
  getDashboardData date w = (Throw "Unauthorized", w).
Proof.
  intros H.
  unfold bulkDeleteTransactions, updateDefaultAccount, createAccount,
    getUserAccounts, getAccountWithTransactions, getDashboardData,
    try_catch, bind, auth.
  rewrite H. repeat split.
Qed.

Lemma unauthenticated_caller_stops_every_action_witness :
  let w := mkWorld None Allowed Sample.store [true] (fun _ => "N") [] [] in
  bulkDeleteTransactions ["t1"] w = (Normal (Failure "Unauthorized"), w) /\
  createAccount (mkAccountData "trip" "SAVINGS" "1" None) w
    = (Throw "Unauthorized", w).
Proof.
  intros w.
  destruct (unauthenticated_caller_stops_every_action
              (fun _ => 0) w eq_refl) as (H1 & _ & H3 & _).
  split; [apply H1 | apply H3].
Defined.

(** X6.  A signed-in caller without a user record: the lookup is the only
    store access, nothing is written, and the action reports or throws
    "User not found". *)
Theorem missing_user_record_stops_every_action date w :
  not_userId (session w) = false ->
  shield w = Allowed ->
  faults w = [] ->
  caller w = None ->
  (forall ids,
     bulkDeleteTransactions ids w = (Normal (Failure "User not found"), w)) /\
  (forall accountId,
     updateDefaultAccount accountId w
       = (Normal (Failure "User not found"), w)) /\
  (forall data, createAccount data w = (Throw "User not found", w)) /\
  getUserAccounts w = (Throw "User not found", w) /\
  (forall accountId,
     getAccountWithTransactions date accountId w
       = (Throw "User not found", w)) /\
  getDashboardData date w = (Throw "User not found", w).
Proof.
  intros Hs Hsh Hf Hc. unfold caller in Hc. rewrite Hs in Hc.
  unfold bulkDeleteTransactions, updateDefaultAccount, createAccount,
    getUserAccounts, getAccountWithTransactions, getDashboardData,
    try_catch, bind, auth, protect, user_findUnique.
  rewrite Hs, Hsh, storage_quiet by assumption. simpl.
  rewrite Hc, set_db_same. repeat split.
Qed.

Lemma missing_user_record_stops_every_action_witness :
  let w := mkWorld (Some "clerk_dave") Allowed Sample.store []
                   (fun _ => "N") [] [] in
  updateDefaultAccount "X" w = (Normal (Failure "User not found"), w) /\
  getUserAccounts w = (Throw "User not found", w).
Proof.
  intros w.
  destruct (missing_user_record_stops_every_action (fun _ => 0) w
              eq_refl eq_refl eq_refl eq_refl) as (_ & H2 & _ & H4 & _).
  split; [apply H2 | apply H4].
Defined.

(** ** [createAccount]: what it refuses and what it leaves alone *)

(** X7.  [createAccount] has no failure payload: its [catch] throws again, so
    a caller gets a success payload or an exception. *)
Theorem createAccount_never_reports_failure data w e :
  fst (createAccount data w) <> Normal (Failure e).
Proof.
  assert (Hh : hoare (fun _ => True) (createAccount data)
                     (fun p _ => succeeded (Normal p) = true)
                     (fun _ _ => True)).
  { unfold createAccount.
    apply hoare_try_catch with (Qt := fun _ _ => True);
      [| intros e0; apply hoare_throw; auto].
    apply hoare_bind with (Qn := fun _ _ => True); [intros w0 _; exact I|].
    intros userId. destruct (not_userId userId); [apply hoare_throw; auto|].
    apply hoare_bind with (Qn := fun _ _ => True); [intros w0 _; exact I|].
    intros [| |].
    2:{ apply hoare_bind with (Qn := fun _ _ => True);
          [intros w0 _; exact I | intros []; apply hoare_throw; auto]. }
    2:{ apply hoare_throw; auto. }
    apply hoare_bind with (Qn := fun _ _ => True);
      [apply hoare_storage_env; auto|].
    intros [user|]; [| apply hoare_throw; auto].
    cbv zeta. destruct (isNaN (parseFloat (data_balance data)));
        [apply hoare_throw; auto|].
    apply hoare_bind with (Qn := fun _ _ => True);
      [apply hoare_storage_env; auto|].
    intros existing. cbv zeta.
    apply hoare_bind with (Qn := fun _ _ => True).
    { destruct (flag_truthy _);
        [apply hoare_storage_env; auto | apply hoare_ret; auto]. }
    intros [].
    apply hoare_bind with (Qn := fun _ _ => True);
      [apply hoare_account_create_env; auto|].
    intros account.
    apply hoare_bind with (Qn := fun _ _ => True); [intros w0 _; exact I|].
    intros []. apply hoare_ret. reflexivity. }
  specialize (Hh w I). intros H.
  destruct (createAccount data w) as [[p | e1] w1]; simpl in *;
    [injection H as ->; discriminate | discriminate].
Qed.

(** X8.  A request the limiter denies never reaches the store: the action
    throws, the database and the failures still to come are as they
    were, and a rate-limit denial is logged. *)
Theorem createAccount_denied_by_limiter data w :
  not_userId (session w) = false ->
  shield w <> Allowed ->
  (exists e, fst (createAccount data w) = Throw e) /\
  db (snd (createAccount data w)) = db w /\
  faults (snd (createAccount data w)) = faults w /\
  (shield w = DeniedRateLimit ->
   fst (createAccount data w)
     = Throw "Too many requests. Please try again later." /\
   console (snd (createAccount data w))
     = (console w ++ ["RATE_LIMIT_EXCEEDED"])%list).
Proof.
  intros Hs Hsh.
  unfold createAccount, try_catch, bind, auth, protect. rewrite Hs.
  destruct (shield w) eqn:E; [now elim Hsh | |]; simpl.
  - split; [eauto|]. repeat split.
  - split; [eauto|]. repeat split; discriminate.
Qed.

Lemma createAccount_denied_by_limiter_witness :
  let w := mkWorld (Some "clerk_alice") DeniedRateLimit Sample.store [true]
                   (fun _ => "N") [] [] in
  fst (createAccount (mkAccountData "trip" "SAVINGS" "1" (Some true)) w)
    = Throw "Too many requests. Please try again later." /\
  db (snd (createAccount (mkAccountData "trip" "SAVINGS" "1" (Some true)) w))
    = Sample.store /\
  console (snd (createAccount (mkAccountData "trip" "SAVINGS" "1" (Some true))
                              w))
    = ["RATE_LIMIT_EXCEEDED"].
Proof.
  intros w.
  destruct (createAccount_denied_by_limiter
              (mkAccountData "trip" "SAVINGS" "1" (Some true)) w)
    as (_ & Hd & _ & Hr); [reflexivity | discriminate |].
  destruct (Hr eq_refl) as [H1 H2]. auto.
Defined.

(** What [parseFloat] reads: an exponent part, white space other than
    the space, "Infinity"; and what it does not read. *)
Lemma parseFloat_samples :
  parseFloat "12.50" = JNum (mkDecimal 1250 2) /\
  parseFloat "1e3" = JNum (mkDecimal 1000 0) /\
  parseFloat "-2.5E-1x" = JNum (mkDecimal (-25) 2) /\
  parseFloat (String (ascii_of_nat 9) "7.5") = JNum (mkDecimal 75 1) /\
  parseFloat "5." = JNum (mkDecimal 5 0) /\
  parseFloat ".5" = JNum (mkDecimal 5 1) /\
  parseFloat "1e" = JNum (mkDecimal 1 0) /\
  parseFloat "Infinity" = JInfinity false /\
  parseFloat " -Infinity" = JInfinity true /\
  parseFloat "1e309" = JInfinity false /\
  parseFloat "ten" = JNaN /\
  parseFloat "" = JNaN /\
  parseFloat "." = JNaN /\
  parseFloat "-" = JNaN /\
  parseFloat "infinity" = JNaN /\
  parseFloat ".e3" = JNaN.
Proof. repeat split; vm_compute; reflexivity. Qed.

(** [parseFloat] returns a number: finite, infinite or NaN. *)
Lemma parseFloat_number input :
  match parseFloat input with
  | JStr _ | JDec _ => False
  | _ => True
  end.
Proof.
  unfold parseFloat.
  destruct (take_sign (skip_white_space input)) as [negative s].
  destruct (strip_prefix "Infinity" s); [exact I|].
  destruct (take_digits s) as [ip r].
  destruct (match r with
            | String "." r' => take_digits r'
            | _ => (EmptyString, r)
            end) as [fp r'].
  unfold number_of.
  destruct ip, fp; try exact I;
    match goal with
    | |- context [if ?c then JInfinity _ else _] => destruct c; [exact I|]
    end;
    match goal with
    | |- context [if ?c then JNum _ else _] => destruct c; exact I
    end.
Qed.

(** X9.  A balance that [parseFloat] reads as NaN stops [createAccount]
    before its first write: it throws and the database is as it was,
    whatever else is in the request. *)
Theorem createAccount_rejects_unreadable_balance data w :
  isNaN (parseFloat (data_balance data)) = true ->
  (exists e, fst (createAccount data w) = Throw e) /\
  db (snd (createAccount data w)) = db w.
Proof.
  intros Hp.
  assert (Hh : hoare (fun w0 => db w0 = db w) (createAccount data)
                     (fun _ _ => False) (fun _ w0 => db w0 = db w)).
  { unfold createAccount.
    apply hoare_try_catch with (Qt := fun _ w0 => db w0 = db w);
      [| intros e0; apply hoare_throw; auto].
    apply hoare_bind with (Qn := fun _ w0 => db w0 = db w);
      [intros w0 H0; exact H0|].
    intros userId. destruct (not_userId userId); [apply hoare_throw; auto|].
    apply hoare_bind with (Qn := fun _ w0 => db w0 = db w);
      [intros w0 H0; exact H0|].
    intros [| |].
    2:{ apply hoare_bind with (Qn := fun _ w0 => db w0 = db w);
          [intros w0 H0; exact H0 | intros []; apply hoare_throw; auto]. }
    2:{ apply hoare_throw; auto. }
    apply hoare_bind with (Qn := fun _ w0 => db w0 = db w).
    { apply (hoare_storage_keeps (fun d => d = db w)). auto. }
    intros [user|]; [| apply hoare_throw; auto].
    cbv zeta. rewrite Hp. apply hoare_throw. auto. }
  specialize (Hh w eq_refl).
  destruct (createAccount data w) as [[p | e1] w1]; simpl;
    [contradiction | eauto].
Qed.

Lemma createAccount_rejects_unreadable_balance_witness :
  let data := mkAccountData "trip" "SAVINGS" "ten" (Some true) in
  fst (createAccount data Sample.world) = Throw "Invalid balance amount" /\
  db (snd (createAccount data Sample.world)) = Sample.store.
Proof.
  intros data. split; [reflexivity|].
  apply (createAccount_rejects_unreadable_balance data Sample.world).
  reflexivity.
Defined.

(** ** What the two default-flag writers leave alone *)

Lemma map_unset_without_isDefault userId l :
  map without_isDefault
      (map (fun a => if is_default_of userId a
                     then set_isDefault false a else a) l)
    = map without_isDefault l.
Proof.
  rewrite map_map. apply map_ext. intros a.
  destruct (is_default_of userId a); reflexivity.
Qed.

(** X10.  Whatever happens, [updateDefaultAccount] adds and removes no account
    and changes no balance, no transaction and no user: at most default
    flags differ afterwards. *)
Theorem updateDefaultAccount_changes_flags_only accountId w :
  users (db (snd (updateDefaultAccount accountId w))) = users (db w) /\
  transactions (db (snd (updateDefaultAccount accountId w)))
    = transactions (db w) /\
  map without_isDefault (accounts (db (snd (updateDefaultAccount accountId w))))
    = map without_isDefault (accounts (db w)).
Proof.
  set (F := fun d => users d = users (db w) /\
                     transactions d = transactions (db w) /\
                     map without_isDefault (accounts d)
                       = map without_isDefault (accounts (db w))).
  assert (Hh : hoare (fun w0 => F (db w0)) (updateDefaultAccount accountId)
                     (fun _ w0 => F (db w0)) (fun _ w0 => F (db w0))).
  { unfold updateDefaultAccount.
    apply hoare_try_catch with (Qt := fun _ w0 => F (db w0));
      [| intros e; apply hoare_ret; auto].
    apply hoare_bind with (Qn := fun _ w0 => F (db w0));
      [intros w0 H0; exact H0|].
    intros userId. destruct (not_userId userId); [apply hoare_throw; auto|].
    apply hoare_bind with (Qn := fun _ w0 => F (db w0));
      [apply (hoare_storage_keeps F); auto|].
    intros [user|]; [| apply hoare_throw; auto].
    apply hoare_bind with (Qn := fun _ w0 => F (db w0)).
    { apply (hoare_storage_keeps F). intros d (H1 & H2 & H3). simpl.
      unfold F. simpl. rewrite map_unset_without_isDefault. auto. }
    intros [].
    apply hoare_bind with (Qn := fun _ w0 => F (db w0)).
    { apply (hoare_storage_keeps F). intros d (H1 & H2 & H3).
      unfold account_update_row. destruct (find _ (accounts d)); simpl;
        [| unfold F; auto].
      unfold F. simpl. rewrite update_first_map; auto. }
    intros account.
    apply hoare_bind with (Qn := fun _ w0 => F (db w0));
      [intros w0 H0; exact H0|].
    intros []. apply hoare_ret. auto. }
  specialize (Hh w). unfold F in Hh.
  destruct (updateDefaultAccount accountId w) as [[p | e] w1];
    apply Hh; auto.
Qed.

Lemma hoare_account_create_rows name type balance userId isDefault
  (U : list User) (T : list Transaction) M :
  hoare (fun w0 => users (db w0) = U /\ transactions (db w0) = T /\
                   map without_isDefault (accounts (db w0)) = M)
        (account_create name type balance userId isDefault)
        (fun row w0 => users (db w0) = U /\ transactions (db w0) = T /\
                       account_userId row = userId /\
                       map without_isDefault (accounts (db w0))
                         = (M ++ [without_isDefault row])%list)
        (fun _ w0 => users (db w0) = U /\ transactions (db w0) = T /\
                     map without_isDefault (accounts (db w0)) = M).
Proof.
  set (P := fun w0 => users (db w0) = U /\ transactions (db w0) = T /\
                      map without_isDefault (accounts (db w0)) = M).
  set (Qn := fun row w0 =>
               users (db w0) = U /\ transactions (db w0) = T /\
               account_userId row = userId /\
               map without_isDefault (accounts (db w0))
                 = (M ++ [without_isDefault row])%list).
  intros w Hw. unfold account_create.
  match goal with
  | |- context [storage ?op w] =>
      refine (hoare_storage P op Qn (fun _ => P) _ _ w Hw)
  end; unfold P, Qn.
  - intros w0 f H. destruct w0; exact H.
  - intros w0 f (H1 & H2 & H3).
    destruct (account_type_of_string type); [| destruct w0; simpl; auto].
    destruct (decimal_input balance); [| destruct w0; simpl; auto].
    destruct (existsb _ _); [destruct w0; simpl; auto|].
    destruct w0; simpl in *. rewrite map_app, H3. auto.
Qed.

(** X11.  Whatever happens, [createAccount] changes no user, no transaction
    and, in the accounts that exist, nothing but default flags; it
    appends one row when it succeeds and none when it throws. *)
Theorem createAccount_appends_at_most_one_row data w :
  users (db (snd (createAccount data w))) = users (db w) /\
  transactions (db (snd (createAccount data w))) = transactions (db w) /\
  exists extra,
    map without_isDefault (accounts (db (snd (createAccount data w))))
      = (map without_isDefault (accounts (db w))
         ++ map without_isDefault extra)%list /\
    List.length extra
      = if succeeded (fst (createAccount data w)) then 1%nat else 0%nat.
Proof.
  set (F := fun d => users d = users (db w) /\
                     transactions d = transactions (db w) /\
                     map without_isDefault (accounts d)
                       = map without_isDefault (accounts (db w))).
  set (G := fun d => users d = users (db w) /\
                     transactions d = transactions (db w) /\
                     exists row,
                       map without_isDefault (accounts d)
                         = (map without_isDefault (accounts (db w))
                            ++ [without_isDefault row])%list).
  assert (Hh : hoare (fun w0 => F (db w0)) (createAccount data)
                     (fun p w0 => succeeded (Normal p) = true /\ G (db w0))
                     (fun _ w0 => F (db w0))).
  { unfold createAccount.
    apply hoare_try_catch with (Qt := fun _ w0 => F (db w0));
      [| intros e0; apply hoare_throw; auto].
    apply hoare_bind with (Qn := fun _ w0 => F (db w0));
      [intros w0 H0; exact H0|].
    intros userId. destruct (not_userId userId); [apply hoare_throw; auto|].
    apply hoare_bind with (Qn := fun _ w0 => F (db w0));
      [intros w0 H0; exact H0|].
    intros [| |].
    2:{ apply hoare_bind with (Qn := fun _ w0 => F (db w0));
          [intros w0 H0; exact H0 | intros []; apply hoare_throw; auto]. }
    2:{ apply hoare_throw; auto. }
    apply hoare_bind with (Qn := fun _ w0 => F (db w0));
      [apply (hoare_storage_keeps F); auto|].
    intros [user|]; [| apply hoare_throw; auto].
    cbv zeta. destruct (isNaN (parseFloat (data_balance data)));
        [apply hoare_throw; auto|].
    apply hoare_bind with (Qn := fun _ w0 => F (db w0));
      [apply (hoare_storage_keeps F); auto|].
    intros existing. cbv zeta.
    apply hoare_bind with (Qn := fun _ w0 => F (db w0)).
    { destruct (flag_truthy _); [| apply hoare_ret; auto].
      apply (hoare_storage_keeps F). intros d0 (H1 & H2 & H3).
      unfold F. simpl. rewrite map_unset_without_isDefault. auto. }
    intros [].
    apply hoare_bind with (Qn := fun _ w0 => G (db w0)).
    { eapply hoare_consequence;
        [apply hoare_account_create_rows | | |].
      - intros w0 H0. exact H0.
      - intros row w0 (H1 & H2 & _ & H3). unfold G. eauto.
      - intros e0 w0 H0. exact H0. }
    intros account.
    apply hoare_bind with (Qn := fun _ w0 => G (db w0));
      [intros w0 H0; exact H0|].
    intros []. apply hoare_ret. auto. }
  specialize (Hh w). unfold F, G in Hh.
  destruct (createAccount data w) as [[p | e] w1]; simpl in *.
  - destruct Hh as [Hp (H1 & H2 & row & H3)]; auto.
    rewrite Hp. split; [exact H1|]. split; [exact H2|].
    exists [row]. auto.
  - destruct Hh as (H1 & H2 & H3); auto.
    split; [exact H1|]. split; [exact H2|].
    exists []. simpl. rewrite app_nil_r. auto.
Qed.

Lemma is_default_of_other uid a :
  account_userId a <> uid -> is_default_of uid a = false.
Proof.
  intros H. unfold is_default_of.
  destruct (String.eqb_spec (account_userId a) uid); [contradiction | auto].
Qed.

Lemma is_account_of_other id uid a :
  account_userId a <> uid -> is_account_of id uid a = false.
Proof.
  intros H. unfold is_account_of.
  destruct (String.eqb_spec (account_userId a) uid); [contradiction|].
  apply andb_false_r.
Qed.

Lemma in_unset_other uid a l :
  In a l -> account_userId a <> uid ->
  In a (map (fun x => if is_default_of uid x
                      then set_isDefault false x else x) l).
Proof.
  intros Hin Ho. apply in_map_iff. exists a.
  rewrite is_default_of_other by exact Ho. auto.
Qed.

(** The caller the store lookup resolves, with what the lookup keeps. *)
Lemma hoare_user_findUnique (I : Db -> Prop) w clerkUserId :
  not_userId (session w) = false ->
  clerkUserId = match session w with Some u => u | None => "" end ->
  hoare (fun w0 => I (db w0) /\ uuid w0 = uuid w /\
                   users (db w0) = users (db w))
        (user_findUnique clerkUserId)
        (fun user w0 => (I (db w0) /\ uuid w0 = uuid w /\
                         users (db w0) = users (db w)) /\
                        caller w = user)
        (fun _ w0 => I (db w0)).
Proof.
  intros Hs ->. apply hoare_storage.
  - intros w0 f (H & _). destruct w0; exact H.
  - intros w0 f (H1 & H2 & H3). simpl.
    split; [destruct w0; simpl in *; auto|].
    unfold caller. rewrite Hs, H3. reflexivity.
Qed.

(** X12.  Neither [updateDefaultAccount] nor [createAccount] changes a row of
    a user other than the caller. *)
Theorem other_users_accounts_untouched w a :
  In a (accounts (db w)) ->
  (forall u, caller w = Some u -> account_userId a <> user_id u) ->
  (forall accountId,
     In a (accounts (db (snd (updateDefaultAccount accountId w))))) /\
  (forall data, In a (accounts (db (snd (createAccount data w))))).
Proof.
  intros Ha Hother.
  set (I := fun d => In a (accounts d)).
  set (P := fun w0 => I (db w0) /\ uuid w0 = uuid w /\
                      users (db w0) = users (db w)).
  split.
  - intros accountId.
    assert (Hh : hoare (fun w0 => P w0 /\ session w0 = session w)
                       (updateDefaultAccount accountId)
                       (fun _ w0 => I (db w0)) (fun _ w0 => I (db w0))).
    { unfold updateDefaultAccount.
      apply hoare_try_catch with (Qt := fun _ w0 => I (db w0));
        [| intros e; apply hoare_ret; auto].
      eapply hoare_bind; [apply hoare_auth|]. intros userId.
      destruct (not_userId userId) eqn:Es;
        [apply hoare_throw; unfold P; tauto|].
      apply hoare_bind with
        (Qn := fun user w0 => I (db w0) /\ caller w = user).
      { intros w0 [[H1 H2] ->]. rewrite H2 in Es.
        pose proof (hoare_user_findUnique I w _ Es eq_refl w0) as H.
        rewrite <- H2 in H. specialize (H H1).
        destruct (user_findUnique _ w0) as [[u | e] w1]; tauto. }
      intros [user|]; [| apply hoare_throw; tauto].
      apply hoare_bind with
        (Qn := fun _ w0 => I (db w0) /\ caller w = Some user).
      { apply (hoare_storage_keeps_weak
                 (fun d => I d /\ caller w = Some user) I); [| tauto].
        intros d [H1 H2]. split; [| exact H2].
        apply in_unset_other; [exact H1 | apply Hother, H2]. }
      intros [].
      apply hoare_bind with (Qn := fun _ w0 => I (db w0)).
      { eapply hoare_consequence with
          (P := fun w0 => I (db w0) /\ caller w = Some user)
          (Qn := fun _ w0 => I (db w0) /\ caller w = Some user)
          (Qt := fun _ w0 => I (db w0) /\ caller w = Some user);
          [| auto | tauto | tauto].
        apply (hoare_storage_keeps (fun d => I d /\ caller w = Some user)).
        intros d [H1 H2]. split; [| exact H2].
        unfold account_update_row.
        destruct (find _ (accounts d)); simpl; [| exact H1].
        apply in_update_first_other; [exact H1|].
        apply is_account_of_other, Hother, H2. }
      intros account.
      apply hoare_bind with (Qn := fun _ w0 => I (db w0));
        [intros w0 H0; exact H0|].
      intros []. apply hoare_ret. auto. }
    specialize (Hh w). unfold P, I in Hh.
    destruct (updateDefaultAccount accountId w) as [[p | e] w1];
      apply Hh; auto.
  - intros data.
    assert (Hh : hoare (fun w0 => P w0 /\ session w0 = session w)
                       (createAccount data)
                       (fun _ w0 => I (db w0)) (fun _ w0 => I (db w0))).
    { unfold createAccount.
      apply hoare_try_catch with (Qt := fun _ w0 => I (db w0));
        [| intros e; apply hoare_throw; auto].
      eapply hoare_bind; [apply hoare_auth|]. intros userId.
      destruct (not_userId userId) eqn:Es;
        [apply hoare_throw; unfold P; tauto|].
      apply hoare_bind with
        (Qn := fun _ w0 => (P w0 /\ session w0 = session w) /\
                           userId = session w0);
        [intros w0 H0; exact H0|].
      intros [| |].
      2:{ apply hoare_bind with (Qn := fun _ w0 => I (db w0));
            [intros w0 H0; unfold P in H0; simpl; tauto
            | intros []; apply hoare_throw; auto]. }
      2:{ apply hoare_throw. unfold P. tauto. }
      apply hoare_bind with
        (Qn := fun user w0 => I (db w0) /\ caller w = user).
      { intros w0 [[H1 H2] ->]. rewrite H2 in Es.
        pose proof (hoare_user_findUnique I w _ Es eq_refl w0) as H.
        rewrite <- H2 in H. specialize (H H1).
        destruct (user_findUnique _ w0) as [[u | e] w1]; tauto. }
      intros [user|]; [| apply hoare_throw; tauto].
      cbv zeta. destruct (isNaN (parseFloat (data_balance data)));
        [apply hoare_throw; tauto|].
      apply hoare_bind with
        (Qn := fun _ w0 => I (db w0) /\ caller w = Some user).
      { apply (hoare_storage_keeps_weak
                 (fun d => I d /\ caller w = Some user) I); [auto | tauto]. }
      intros existing. cbv zeta.
      apply hoare_bind with
        (Qn := fun _ w0 => I (db w0) /\ caller w = Some user).
      { destruct (flag_truthy _); [| apply hoare_ret; auto].
        apply (hoare_storage_keeps_weak
                 (fun d => I d /\ caller w = Some user) I); [| tauto].
        intros d [H1 H2]. split; [| exact H2].
        apply in_unset_other; [exact H1 | apply Hother, H2]. }
      intros [].
      apply hoare_bind with (Qn := fun _ w0 => I (db w0)).
      { intros w0 [H0 _]. unfold account_create.
        match goal with
        | |- context [storage ?op w0] =>
            refine (hoare_storage (fun w1 => I (db w1)) op
                      (fun _ w1 => I (db w1)) (fun _ w1 => I (db w1))
                      _ _ w0 H0)
        end.
        - intros w1 f H. destruct w1; exact H.
        - intros w1 f H.
          destruct (account_type_of_string _); [| destruct w1; exact H].
          destruct (decimal_input _); [| destruct w1; exact H].
          destruct (existsb _ _); [destruct w1; exact H|].
          destruct w1; unfold I in *; simpl in *.
          apply in_or_app. auto. }
      intros account.
      apply hoare_bind with (Qn := fun _ w0 => I (db w0));
        [intros w0 H0; exact H0|].
      intros []. apply hoare_ret. auto. }
    specialize (Hh w). unfold P, I in Hh.
    destruct (createAccount data w) as [[p | e] w1]; apply Hh; auto.
Qed.

(** ** A default switch that succeeds *)

Lemma storage_run_frame {A} (op : Db -> Completion A * Db) w r w' :
  storage op w = (r, w') ->
  session w' = session w /\ uuid w' = uuid w.
Proof.
  intros H. pose proof (storage_frame op w) as F. rewrite H in F.
  simpl in F. tauto.
Qed.

(** What a successful [updateDefaultAccount] did. *)
Lemma updateDefaultAccount_success accountId w s w' :
  updateDefaultAccount accountId w = (Normal (Success s), w') ->
  exists u a0,
    caller w = Some u /\
    find (is_account_of accountId (user_id u))
         (map (fun a => if is_default_of (user_id u) a
                        then set_isDefault false a else a)
              (accounts (db w))) = Some a0 /\
    s = serializeDecimal (set_isDefault true a0) /\
    accounts (db w')
      = update_first (is_account_of accountId (user_id u))
          (set_isDefault true)
          (map (fun a => if is_default_of (user_id u) a
                         then set_isDefault false a else a)
               (accounts (db w))) /\
    session w' = session w /\ users (db w') = users (db w).
Proof.
  unfold updateDefaultAccount. intros H. apply try_report_success in H.
  run_normal H as sid w1 Ha. injection Ha as <- <-.
  destruct (not_userId (session w)) eqn:Es; [discriminate|].
  run_normal H as us w2 Hu.
  pose proof (storage_run_frame _ _ _ _ Hu) as F2.
  apply storage_normal in Hu. injection Hu as Hu H2.
  destruct us as [user|]; [|discriminate].
  run_normal H as [] w3 Hc.
  pose proof (storage_run_frame _ _ _ _ Hc) as F3.
  apply storage_normal in Hc. injection Hc as H3.
  run_normal H as a w4 Hs.
  pose proof (storage_run_frame _ _ _ _ Hs) as F4.
  apply storage_normal in Hs. unfold account_update_row in Hs.
  destruct (find _ (accounts (db w3))) as [a0|] eqn:Hf; [|discriminate].
  injection Hs as <- H4.
  run_normal H as [] w5 Hv. injection Hv as <-. injection H as <- <-.
  exists user, a0. rewrite <- H3 in Hf. simpl in Hf. rewrite <- H2 in Hf.
  split; [unfold caller; rewrite Es; exact Hu|].
  split; [exact Hf|]. split; [reflexivity|].
  simpl. rewrite <- H4. simpl. rewrite <- H3. simpl. rewrite <- H2.
  split; [reflexivity|].
  split; [destruct F2 as [F2 _], F3 as [F3 _], F4 as [F4 _]; congruence|].
  reflexivity.
Qed.

Lemma in_update_first_hit {A} (p : A -> bool) (f : A -> A) l a0 :
  find p l = Some a0 -> In (f a0) (update_first p f l).
Proof.
  induction l as [| x l IH]; simpl; [discriminate|].
  destruct (p x); [intros [= ->]; left; reflexivity | right; auto].
Qed.

(** X13.  After a successful [updateDefaultAccount] the account named in the
    call belongs to the caller, is the one returned, and is the only
    account of the caller that carries the flag, whatever flags the
    caller's accounts carried before. *)
Theorem successful_default_switch accountId w s w' :
  updateDefaultAccount accountId w = (Normal (Success s), w') ->
  exists u row,
    caller w = Some u /\
    In row (accounts (db w')) /\
    s = serializeDecimal row /\
    account_id row = accountId /\
    account_userId row = user_id u /\
    defaults_of (user_id u) (db w') = [row].
Proof.
  intros H. apply updateDefaultAccount_success in H.
  destruct H as (u & a0 & Hc & Hf & Hs & Hacc & _ & _).
  exists u, (set_isDefault true a0).
  pose proof (find_some _ _ Hf) as [_ Hp].
  unfold is_account_of in Hp. apply andb_true_iff in Hp.
  destruct Hp as [Hp1 Hp2].
  apply String.eqb_eq in Hp1. apply String.eqb_eq in Hp2.
  split; [exact Hc|].
  split; [rewrite Hacc; apply in_update_first_hit, Hf|].
  split; [exact Hs|]. split; [exact Hp1|]. split; [exact Hp2|].
  unfold defaults_of. rewrite Hacc.
  apply set_default_one; [apply cleared_has_no_default | exact Hf].
Qed.

(** Alice's accounts X and Z both carry the flag; switching to Y leaves
    Y alone with it. *)
Lemma successful_default_switch_witness :
  let Z := mkAccount "Z" "u1" "spare" CURRENT (Dec.cents 0) true in
  let w := set_db (mkDb (users Sample.store) [Sample.X; Sample.Y; Z]
                        (transactions Sample.store)) Sample.world in
  List.length (defaults_of "u1" (db w)) = 2%nat /\
  exists row,
    account_id row = "Y" /\
    defaults_of "u1" (db (snd (updateDefaultAccount "Y" w))) = [row].
Proof.
  intros Z w. split; [reflexivity|].
  destruct (successful_default_switch "Y" w
              (serializeDecimal (set_isDefault true Sample.Y))
              (snd (updateDefaultAccount "Y" w)) eq_refl)
    as (u & row & Hc & _ & _ & Hid & _ & Hd).
  injection Hc as <-. exists row. auto.
Defined.

(** A sequence of requests that all succeed: Carol opens her first
    account, Alice switches her default to Y. *)
Lemma successful_calls_keep_single_default_witness :
  let requests :=
    [mkRequest (Some "clerk_carol") Allowed [] (fun _ => "N")
               (CallCreateAccount
                  (mkAccountData "first" "CURRENT" "0" (Some false)));
     mkRequest (Some "clerk_alice") Allowed [] (fun _ => "M")
               (CallUpdateDefaultAccount "Y")] in
  fst (serve_all requests Sample.store) = true /\
  single_default (snd (serve_all requests Sample.store)).
Proof.
  intros requests. split; [reflexivity|].
  apply (successful_calls_keep_single_default requests Sample.store).
  - intros a Ha. simpl in Ha.
    destruct Ha as [<- | [<- | [<- | []]]]; reflexivity.
  - reflexivity.
Defined.

(** ** Listing the accounts *)

(** The rows [getUserAccounts] lists for user [userId], with their
    transaction counts. *)
Lemma getUserAccounts_quiet w u :
  caller w = Some u ->
  faults w = [] ->
  getUserAccounts w
    = (Normal
         (Some
            (map (fun a =>
                    (serializeTransaction a,
                     List.length
                       (filter (fun t => String.eqb (transaction_accountId t)
                                                    (account_id a))
                               (transactions (db w)))))
                 (rev (filter (fun a => String.eqb (account_userId a)
                                                   (user_id u))
                              (accounts (db w)))))), w).
Proof.
  intros Hc Hf. apply caller_session in Hc. destruct Hc as [Hs Hu].
  unfold getUserAccounts, bind. rewrite auth_run, Hs.
  unfold user_findUnique. rewrite storage_quiet by assumption. simpl.
  rewrite Hu, set_db_same.
  unfold try_catch, bind, account_findMany_with_count.
  rewrite storage_quiet by assumption. simpl.
  rewrite set_db_same, map_map. reflexivity.
Qed.

Lemma getUserAccounts_success w l :
  fst (getUserAccounts w) = Normal (Some l) ->
  exists u,
    caller w = Some u /\
    map fst l
      = map serializeTransaction
            (rev (filter (fun a => String.eqb (account_userId a) (user_id u))
                         (accounts (db w)))).
Proof.
  destruct (getUserAccounts w) as [r w'] eqn:E. simpl. intros ->.
  unfold getUserAccounts in E.
  run_normal E as sid w1 Ha. injection Ha as <- <-.
  destruct (not_userId (session w)) eqn:Es; [discriminate|].
  run_normal E as us w2 Hu.
  apply storage_normal in Hu. injection Hu as Hu H2.
  destruct us as [user|]; [|discriminate].
  unfold try_catch in E.
  destruct (bind (account_findMany_with_count (user_id user)) _ w2)
    as [[x | e] w3] eqn:Eb; [| discriminate].
  injection E as -> _.
  run_normal Eb as rows w4 Hr.
  apply storage_normal in Hr. injection Hr as Hr _.
  injection Eb as <- _.
  exists user. split; [unfold caller; rewrite Es; exact Hu|].
  rewrite <- Hr, <- H2, !map_map. simpl. apply map_ext. reflexivity.
Qed.

(** X14.  [getUserAccounts] never writes; and when it returns a list, the list
    holds the caller's accounts and no others, newest first. *)
Theorem getUserAccounts_lists_own_accounts w :
  db (snd (getUserAccounts w)) = db w /\
  (forall l,
     fst (getUserAccounts w) = Normal (Some l) ->
     exists u,
       caller w = Some u /\
       map (fun x => s_id (fst x)) l
         = rev (map account_id
                    (filter (fun a => String.eqb (account_userId a)
                                                 (user_id u))
                            (accounts (db w)))) /\
       (forall x, In x l -> s_userId (fst x) = user_id u)).
Proof.
  split.
  - assert (Hh : hoare (fun w0 => db w0 = db w) getUserAccounts
                       (fun _ w0 => db w0 = db w) (fun _ w0 => db w0 = db w)).
    { unfold getUserAccounts.
      apply hoare_bind with (Qn := fun _ w0 => db w0 = db w);
        [intros w0 H0; exact H0|].
      intros userId. destruct (not_userId userId); [apply hoare_throw; auto|].
      apply hoare_bind with (Qn := fun _ w0 => db w0 = db w);
        [apply (hoare_storage_keeps (fun d => d = db w)); auto|].
      intros [user|]; [| apply hoare_throw; auto].
      apply hoare_try_catch with (Qt := fun _ w0 => db w0 = db w).
      - apply hoare_bind with (Qn := fun _ w0 => db w0 = db w);
          [apply (hoare_storage_keeps (fun d => d = db w)); auto|].
        intros rows. apply hoare_ret. auto.
      - intros e.
        apply hoare_bind with (Qn := fun _ w0 => db w0 = db w);
          [intros w0 H0; exact H0 | intros []; apply hoare_ret; auto]. }
    specialize (Hh w eq_refl).
    destruct (getUserAccounts w) as [[r | e] w1]; exact Hh.
  - intros l Hl. apply getUserAccounts_success in Hl.
    destruct Hl as (u & Hc & Hm). exists u. split; [exact Hc|]. split.
    + rewrite <- (map_map fst s_id), Hm, map_map, <- map_rev.
      apply map_ext. reflexivity.
    + intros x Hx. apply (in_map fst) in Hx. rewrite Hm in Hx.
      apply in_map_iff in Hx. destruct Hx as (a & <- & Ha).
      apply in_rev, filter_In in Ha. destruct Ha as [_ Ha].
      apply String.eqb_eq in Ha. exact Ha.
Qed.

Lemma getUserAccounts_lists_own_accounts_witness :
  exists l,
    fst (getUserAccounts Sample.world) = Normal (Some l) /\
    map (fun x => s_id (fst x)) l = ["Y"; "X"] /\
    (forall x, In x l -> s_userId (fst x) = "u1").
Proof.
  destruct (getUserAccounts_lists_own_accounts Sample.world) as [_ H].
  eexists. split; [reflexivity|].
  destruct (H _ eq_refl) as (u & Hc & Hids & Hown).
  injection Hc as <-. split; [exact Hids | exact Hown].
Defined.

(** ** One action after another *)

Lemma createAccount_success_frame data w s w' :
  createAccount data w = (Normal (Success s), w') ->
  session w' = session w /\ users (db w') = users (db w).
Proof.
  unfold createAccount. intros H. apply rethrow_normal in H.
  run_normal H as userId w1 Ha. injection Ha as <- <-.
  destruct (not_userId (session w)); [discriminate|].
  run_normal H as decision w1 Hp. injection Hp as <- <-.
  destruct (shield w); [| discriminate | discriminate].
  run_normal H as us w2 Hu.
  pose proof (storage_run_frame _ _ _ _ Hu) as [F2 _].
  apply storage_normal in Hu. injection Hu as _ H2.
  destruct us as [user|]; [|discriminate].
  cbv zeta in H.
  destruct (isNaN (parseFloat (data_balance data))); [discriminate|].
  run_normal H as existing w3 He.
  pose proof (storage_run_frame _ _ _ _ He) as [F3 _].
  apply storage_normal in He. injection He as _ H3.
  run_normal H as [] w4 Hc.
  assert (session w4 = session w3 /\ users (db w4) = users (db w3))
    as [F4 H4].
  { destruct (flag_truthy _).
    - pose proof (storage_run_frame _ _ _ _ Hc) as [F _].
      apply storage_normal in Hc. injection Hc as <-. auto.
    - injection Hc as <-. auto. }
  run_normal H as row w5 Hr.
  assert (session w5 = session w4) as F5.
  { unfold account_create in Hr.
    apply (storage_run_frame _ _ _ _ Hr). }
  apply account_create_normal in Hr.
  destruct Hr as (ty & b & _ & _ & _ & _ & H5 & _).
  run_normal H as [] w6 Hv. injection Hv as <-. injection H as _ <-.
  simpl. split; congruence.
Qed.

Lemma caller_agree w1 w2 :
  session w2 = session w1 ->
  users (db w2) = users (db w1) ->
  caller w2 = caller w1.
Proof. unfold caller. intros -> ->. reflexivity. Qed.

(** X15.  The account a successful [createAccount] returned is the first entry
    of the list [getUserAccounts] returns to the same user next. *)
Theorem created_account_is_listed_first data w s w' w2 :
  createAccount data w = (Normal (Success s), w') ->
  db w2 = db w' ->
  session w2 = session w ->
  faults w2 = [] ->
  exists n rest,
    fst (getUserAccounts w2) = Normal (Some ((s, n) :: rest)).
Proof.
  intros H Hd Hs Hf.
  pose proof (createAccount_success_frame _ _ _ _ H) as [F1 F2].
  apply createAccount_success in H.
  destruct H as (u & row & n & Hc & _ & -> & Hu & _ & _ & Hacc).
  cbv zeta in Hacc.
  assert (caller w2 = Some u) as Hc2.
  { rewrite <- Hc. apply caller_agree; [exact Hs | now rewrite Hd]. }
  rewrite (getUserAccounts_quiet w2 u Hc2 Hf). simpl.
  rewrite Hd, Hacc, filter_app. simpl.
  rewrite Hu, String.eqb_refl, rev_app_distr. simpl. eauto.
Qed.

Lemma created_account_is_listed_first_witness :
  let data := mkAccountData "trip" "SAVINGS" "12.50" None in
  let w' := snd (createAccount data Sample.world) in
  exists n rest,
    fst (getUserAccounts (set_db (db w') Sample.world))
      = Normal (Some ((mkSerializedAccount "N" "u1" "trip" SAVINGS
                         (JNum (mkDecimal 1250 2)) false, n) :: rest)).
Proof.
  intros data w'.
  apply (created_account_is_listed_first data Sample.world _ w');
    reflexivity.
Defined.

Lemma find_first_of_filter {A} (p : A -> bool) l x rest :
  filter p l = x :: rest -> find p l = Some x.
Proof.
  induction l as [| y l IH]; simpl; [discriminate|].
  destruct (p y); [intros [= -> _]; reflexivity | exact IH].
Qed.

Lemma filter_rev {A} (p : A -> bool) l :
  filter p (rev l) = rev (filter p l).
Proof.
  induction l as [| x l IH]; simpl; auto.
  rewrite filter_app, IH. simpl. destruct (p x); simpl;
    [reflexivity | apply app_nil_r].
Qed.

Lemma filter_filter_and {A} (p q : A -> bool) l :
  filter p (filter q l) = filter (fun x => q x && p x) l.
Proof.
  induction l as [| x l IH]; simpl; auto.
  destruct (q x); simpl; [destruct (p x); rewrite IH|]; auto.
Qed.

(** X16.  After a successful [updateDefaultAccount], the default account the
    dashboard page picks from [getUserAccounts] is the account that was
    named. *)
Theorem dashboard_shows_the_new_default accountId w s w' w2 :
  updateDefaultAccount accountId w = (Normal (Success s), w') ->
  db w2 = db w' ->
  session w2 = session w ->
  faults w2 = [] ->
  exists accounts n,
    fst (getUserAccounts w2) = Normal accounts /\
    defaultAccount accounts = Some (s, n) /\
    s_id s = accountId.
Proof.
  intros H Hd Hs Hf.
  pose proof (updateDefaultAccount_success _ _ _ _ H)
    as (u & a0 & Hc & Hfind & Hser & Hacc & F1 & F2).
  assert (defaults_of (user_id u) (db w') = [set_isDefault true a0]) as Hdef.
  { unfold defaults_of. rewrite Hacc.
    apply set_default_one; [apply cleared_has_no_default | exact Hfind]. }
  pose proof (find_some _ _ Hfind) as [_ Hp].
  unfold is_account_of in Hp. apply andb_true_iff in Hp.
  destruct Hp as [Hp1 _]. apply String.eqb_eq in Hp1.
  assert (caller w2 = Some u) as Hc2.
  { rewrite <- Hc. apply caller_agree; [exact Hs | now rewrite Hd]. }
  rewrite (getUserAccounts_quiet w2 u Hc2 Hf). simpl.
  eexists. eexists. split; [reflexivity|]. split; [| rewrite Hser; exact Hp1].
  unfold defaultAccount.
  apply find_first_of_filter with (rest := []).
  rewrite Hd.
  set (g := fun a => (serializeTransaction a, _)).
  assert (forall l, filter (fun account => s_isDefault (fst account)) (map g l)
                    = map g (filter account_isDefault l)) as Hfm.
  { induction l as [| x l IH]; simpl; auto.
    destruct (account_isDefault x); simpl; now rewrite IH. }
  rewrite Hfm, filter_rev, filter_filter_and.
  unfold defaults_of, is_default_of in Hdef. rewrite Hdef. simpl.
  unfold g. rewrite Hser. reflexivity.
Qed.

Lemma dashboard_shows_the_new_default_witness :
  let w' := snd (updateDefaultAccount "Y" Sample.world) in
  exists accounts n,
    fst (getUserAccounts (set_db (db w') Sample.world)) = Normal accounts /\
    defaultAccount accounts
      = Some (serializeDecimal (set_isDefault true Sample.Y), n) /\
    s_id (serializeDecimal (set_isDefault true Sample.Y)) = "Y".
Proof.
  intros w'.
  apply (dashboard_shows_the_new_default "Y" Sample.world _ w');
    reflexivity.
Defined.

(** ** The read actions *)

Section DatedReads.

Variable date : Transaction -> Z.

Lemma insert_by_date_permutation t l :
  Permutation (insert_by_date date t l) (t :: l).
Proof.
  induction l as [| x l IH]; simpl; auto.
  destruct (date x <=? date t); auto.
  rewrite IH. apply perm_swap.
Qed.

Lemma orderBy_date_desc_permutation l :
  Permutation (orderBy_date_desc date l) l.
Proof.
  induction l as [| t l IH]; simpl; auto.
  rewrite insert_by_date_permutation. auto.
Qed.

Lemma insert_by_date_sorted t l :
  newest_first date l -> newest_first date (insert_by_date date t l).
Proof.
  unfold newest_first. induction l as [| x l IH]; simpl; intros H.
  - repeat constructor.
  - destruct (date x <=? date t) eqn:E.
    + constructor; [exact H|]. constructor. apply Z.leb_le, E.
    + apply Z.leb_gt in E. inversion H as [| ? ? Hs Hr]; subst.
      constructor; [apply IH, Hs|].
      destruct l as [| y l]; simpl.
      * constructor. lia.
      * destruct (date y <=? date t); constructor; [lia|].
        inversion Hr; subst. assumption.
Qed.

Lemma orderBy_date_desc_sorted l : newest_first date (orderBy_date_desc date l).
Proof.
  induction l as [| t l IH]; simpl; [constructor|].
  apply insert_by_date_sorted, IH.
Qed.

(** X17.  [getDashboardData] never writes; what it returns are the caller's
    transactions, each once, none of another user, newest first, with
    the amounts as numbers. *)
Theorem getDashboardData_lists_own_transactions w :
  db (snd (getDashboardData date w)) = db w /\
  (forall l,
     fst (getDashboardData date w) = Normal l ->
     exists u ts,
       caller w = Some u /\
       l = map serializeDecimal_transaction ts /\
       Permutation ts (filter (owned_transaction (user_id u))
                              (transactions (db w))) /\
       newest_first date ts /\
       (forall x, In x l ->
          st_userId x = user_id u /\ is_decimal (st_amount x) = false)).
Proof.
  split.
  - assert (Hh : hoare (fun w0 => db w0 = db w) (getDashboardData date)
                       (fun _ w0 => db w0 = db w) (fun _ w0 => db w0 = db w)).
    { unfold getDashboardData.
      apply hoare_bind with (Qn := fun _ w0 => db w0 = db w);
        [intros w0 H0; exact H0|].
      intros userId. destruct (not_userId userId); [apply hoare_throw; auto|].
      apply hoare_bind with (Qn := fun _ w0 => db w0 = db w);
        [apply (hoare_storage_keeps (fun d => d = db w)); auto|].
      intros [user|]; [| apply hoare_throw; auto].
      apply hoare_bind with (Qn := fun _ w0 => db w0 = db w);
        [apply (hoare_storage_keeps (fun d => d = db w)); auto|].
      intros rows. apply hoare_ret. auto. }
    specialize (Hh w eq_refl).
    destruct (getDashboardData date w) as [[r | e] w1]; exact Hh.
  - intros l. destruct (getDashboardData date w) as [r w'] eqn:E. simpl.
    intros ->. unfold getDashboardData in E.
    run_normal E as sid w1 Ha. injection Ha as <- <-.
    destruct (not_userId (session w)) eqn:Es; [discriminate|].
    run_normal E as us w2 Hu.
    apply storage_normal in Hu. injection Hu as Hu H2.
    destruct us as [user|]; [|discriminate].
    run_normal E as rows w3 Hr.
    apply storage_normal in Hr. injection Hr as Hr _.
    injection E as <- _.
    exists user, rows. split; [unfold caller; rewrite Es; exact Hu|].
    split; [reflexivity|].
    assert (Permutation rows (filter (owned_transaction (user_id user))
                                     (transactions (db w)))) as Hperm.
    { rewrite <- Hr, <- H2. apply orderBy_date_desc_permutation. }
    split; [exact Hperm|].
    split; [rewrite <- Hr; apply orderBy_date_desc_sorted|].
    intros x Hx. apply in_map_iff in Hx. destruct Hx as (t & <- & Ht).
    split; [| reflexivity].
    apply (Permutation_in _ Hperm), filter_In in Ht. destruct Ht as [_ Ht].
    apply String.eqb_eq in Ht. exact Ht.
Qed.

(** X18.  [getAccountWithTransactions] never writes.  When it returns an
    account, the account has the id asked for and belongs to the caller,
    and it comes with exactly the transactions linked to it, newest
    first, and with their number. *)
Theorem getAccountWithTransactions_returns_own_account accountId w :
  db (snd (getAccountWithTransactions date accountId w)) = db w /\
  (forall r,
     fst (getAccountWithTransactions date accountId w) = Normal (Some r) ->
     exists u a ts,
       caller w = Some u /\
       In a (accounts (db w)) /\
       account_id a = accountId /\
       account_userId a = user_id u /\
       awt_account r = serializeDecimal a /\
       awt_transactions r = map serializeDecimal_transaction ts /\
       Permutation ts
         (filter (fun t => String.eqb (transaction_accountId t) accountId)
                 (transactions (db w))) /\
       newest_first date ts /\
       awt_count r = List.length ts).
Proof.
  split.
  - assert (Hh : hoare (fun w0 => db w0 = db w)
                       (getAccountWithTransactions date accountId)
                       (fun _ w0 => db w0 = db w) (fun _ w0 => db w0 = db w)).
    { unfold getAccountWithTransactions.
      apply hoare_bind with (Qn := fun _ w0 => db w0 = db w);
        [intros w0 H0; exact H0|].
      intros userId. destruct (not_userId userId); [apply hoare_throw; auto|].
      apply hoare_bind with (Qn := fun _ w0 => db w0 = db w);
        [apply (hoare_storage_keeps (fun d => d = db w)); auto|].
      intros [user|]; [| apply hoare_throw; auto].
      apply hoare_bind with (Qn := fun _ w0 => db w0 = db w);
        [apply (hoare_storage_keeps (fun d => d = db w)); auto|].
      intros [[[a ts] n]|]; apply hoare_ret; auto. }
    specialize (Hh w eq_refl).
    destruct (getAccountWithTransactions date accountId w)
      as [[r | e] w1]; exact Hh.
  - intros r.
    destruct (getAccountWithTransactions date accountId w) as [c w'] eqn:E.
    simpl. intros ->. unfold getAccountWithTransactions in E.
    run_normal E as sid w1 Ha. injection Ha as <- <-.
    destruct (not_userId (session w)) eqn:Es; [discriminate|].
    run_normal E as us w2 Hu.
    apply storage_normal in Hu. injection Hu as Hu H2.
    destruct us as [user|]; [|discriminate].
    run_normal E as found w3 Hr.
    apply storage_normal in Hr. injection Hr as Hr _.
    rewrite <- H2 in Hr.
    destruct (find (is_account_of accountId (user_id user))
                   (accounts (db w))) as [a|] eqn:Hf;
      [| subst found; discriminate].
    subst found. injection E as <- _.
    pose proof (find_some _ _ Hf) as [Hin Hp].
    unfold is_account_of in Hp. apply andb_true_iff in Hp.
    destruct Hp as [Hp1 Hp2].
    apply String.eqb_eq in Hp1. apply String.eqb_eq in Hp2.
    eexists user, a, _. split; [unfold caller; rewrite Es; exact Hu|].
    repeat (split; [first [assumption | reflexivity]|]).
    rewrite <- Hp1.
    split; [apply orderBy_date_desc_permutation|].
    split; [apply orderBy_date_desc_sorted|].
    simpl. symmetry. apply Permutation_length,
      orderBy_date_desc_permutation.
Qed.

(** X19.  An account of another user is reported as absent: for an id that no
    account of the caller has, [getAccountWithTransactions] returns
    [null] and nothing of the account. *)
Theorem getAccountWithTransactions_hides_foreign_accounts accountId w u :
  caller w = Some u ->
  faults w = [] ->
  (forall a, In a (accounts (db w)) ->
             account_id a = accountId -> account_userId a <> user_id u) ->
  getAccountWithTransactions date accountId w = (Normal None, w).
Proof.
  intros Hc Hf Hforeign. apply caller_session in Hc. destruct Hc as [Hs Hu].
  unfold getAccountWithTransactions, bind. rewrite auth_run, Hs.
  unfold user_findUnique. rewrite storage_quiet by assumption. simpl.
  rewrite Hu, set_db_same.
  unfold account_findUnique_with_transactions.
  rewrite storage_quiet by assumption. simpl.
  destruct (find (is_account_of accountId (user_id u)) (accounts (db w)))
    as [a|] eqn:E.
  - apply find_some in E. destruct E as [Hin Hp].
    unfold is_account_of in Hp. apply andb_true_iff in Hp.
    destruct Hp as [Hp1 Hp2].
    apply String.eqb_eq in Hp1. apply String.eqb_eq in Hp2.
    elim (Hforeign a Hin Hp1 Hp2).
  - rewrite set_db_same. reflexivity.
Qed.

End DatedReads.

Lemma getDashboardData_lists_own_transactions_witness :
  exists l,
    fst (getDashboardData sample_date Sample.world) = Normal l /\
    map st_id l = ["t3"; "t2"; "t5"; "t1"] /\
    (forall x, In x l ->
       st_userId x = "u1" /\ is_decimal (st_amount x) = false).
Proof.
  eexists. split; [reflexivity|]. split; [reflexivity|].
  destruct (getDashboardData_lists_own_transactions sample_date Sample.world)
    as [_ H].
  destruct (H _ eq_refl) as (u & ts & Hc & _ & _ & _ & Hown).
  injection Hc as <-. exact Hown.
Defined.

Lemma getAccountWithTransactions_returns_own_account_witness :
  exists r,
    fst (getAccountWithTransactions sample_date "X" Sample.world)
      = Normal (Some r) /\
    map st_id (awt_transactions r) = ["t2"; "t1"] /\
    awt_count r = 2%nat /\
    exists a, awt_account r = serializeDecimal a /\ account_userId a = "u1".
Proof.
  eexists. split; [reflexivity|]. split; [reflexivity|].
  split; [reflexivity|].
  destruct (getAccountWithTransactions_returns_own_account
              sample_date "X" Sample.world) as [_ H].
  destruct (H _ eq_refl) as (u & a & ts & Hc & _ & _ & Hu & Ha & _).
  injection Hc as <-. exists a. auto.
Defined.

(** Alice asks for Bob's account B. *)
Lemma getAccountWithTransactions_hides_foreign_accounts_witness :
  getAccountWithTransactions sample_date "B" Sample.world
    = (Normal None, Sample.world).
Proof.
  apply (getAccountWithTransactions_hides_foreign_accounts
           sample_date "B" Sample.world Sample.alice);
    try reflexivity.
  intros a [<- | [<- | [<- | []]]]; simpl; discriminate.
Defined.

(** ** The middleware *)

Lemma after_prefix_itself p rest : after_prefix p (p ++ rest) = Some rest.
Proof.
  induction p as [| a p IH]; simpl; auto.
  rewrite Ascii.eqb_refl. exact IH.
Qed.


(** X21.  The account pages live under "/account/", which none of the three
    protected texts begins: the middleware lets a request without a
    session through to every account page.  (The actions behind the
    page still throw "Unauthorized".) *)
Theorem middleware_passes_account_pages id :
  isProtectedRoute ("/account/" ++ id) = false /\
  middleware None ("/account/" ++ id) = Next.
Proof. split; reflexivity. Qed.


(** ** Requests that resolve nothing *)

(** With nothing resolved and no storage failure the action succeeds and
    writes nothing. *)
Lemma bulkDelete_nothing_resolved ids w u :
  caller w = Some u ->
  faults w = [] ->
  filter (transaction_where ids (user_id u)) (transactions (db w)) = [] ->
  fst (bulkDeleteTransactions ids w) = Normal (Success tt) /\
  db (snd (bulkDeleteTransactions ids w)) = db w.
Proof.
  intros Hc Hf Hnone. apply caller_session in Hc. destruct Hc as [Hs Hu].
  unfold bulkDeleteTransactions, try_catch, bind. rewrite auth_run, Hs.
  unfold user_findUnique. rewrite storage_quiet by assumption. simpl.
  rewrite Hu, set_db_same.
  unfold transaction_findMany. rewrite storage_quiet by assumption. simpl.
  rewrite Hnone, set_db_same. simpl.
  unfold dollar_transaction, bind, transaction_deleteMany.
  rewrite storage_quiet by assumption. simpl.
  rewrite filter_none_negb by assumption.
  split; [reflexivity|]. destruct (db w); reflexivity.
Qed.

(** An empty list of ids is a success that writes nothing. *)
Theorem bulkDelete_of_nothing w u :
  caller w = Some u ->
  faults w = [] ->
  fst (bulkDeleteTransactions [] w) = Normal (Success tt) /\
  db (snd (bulkDeleteTransactions [] w)) = db w.
Proof.
  intros Hc Hf. apply (bulkDelete_nothing_resolved [] w u Hc Hf).
  induction (transactions (db w)) as [| t l IH]; simpl; auto.
Qed.

Lemma bulkDelete_of_nothing_witness :
  fst (bulkDeleteTransactions [] Sample.world) = Normal (Success tt) /\
  db (snd (bulkDeleteTransactions [] Sample.world)) = Sample.store.
Proof.
  apply (bulkDelete_of_nothing Sample.world Sample.alice); reflexivity.
Defined.

Lemma filter_after_negb {A} (p : A -> bool) l :
  filter p (filter (fun x => negb (p x)) l) = [].
Proof.
  induction l as [| x l IH]; simpl; auto.
  destruct (p x) eqn:E; simpl; rewrite ?E; exact IH.
Qed.

Lemma bulkDelete_keeps_users ids w :
  users (db (snd (bulkDeleteTransactions ids w))) = users (db w).
Proof.
  pose proof (bulkDelete_keeps (fun d => users d = users (db w)) ids) as H.
  assert (Hh : hoare (fun w0 => users (db w0) = users (db w))
                     (bulkDeleteTransactions ids)
                     (fun _ w0 => users (db w0) = users (db w))
                     (fun _ w0 => users (db w0) = users (db w))).
  { apply H.
    - intros d userId Hd. exact Hd.
    - intros d id delta Hd. unfold account_update_row.
      destruct (find _ (accounts d)); simpl; exact Hd. }
  specialize (Hh w eq_refl).
  destruct (bulkDeleteTransactions ids w) as [[a | e] w1]; exact Hh.
Qed.

(** X22.  Repeating a bulk delete that succeeded is harmless: the same request
    from the same user succeeds again and writes nothing. *)
Theorem bulkDelete_twice ids w w' w2 :
  bulkDeleteTransactions ids w = (Normal (Success tt), w') ->
  db w2 = db w' ->
  session w2 = session w ->
  faults w2 = [] ->
  fst (bulkDeleteTransactions ids w2) = Normal (Success tt) /\
  db (snd (bulkDeleteTransactions ids w2)) = db w2.
Proof.
  intros H Hd Hs Hf.
  pose proof (bulkDelete_keeps_users ids w) as Hu.
  destruct (bulkDelete_outcome ids w) as [(e & He & _) | (_ & u & Hc & Ht)];
    rewrite H in *; simpl in *; [discriminate|].
  apply (bulkDelete_nothing_resolved ids w2 u).
  - rewrite <- Hc. apply caller_agree; [exact Hs | now rewrite Hd].
  - exact Hf.
  - rewrite Hd, Ht. apply filter_after_negb.
Qed.

Lemma bulkDelete_twice_witness :
  let w' := snd (bulkDeleteTransactions ["t1"; "t3"] Sample.world) in
  let w2 := set_db (db w') Sample.world in
  fst (bulkDeleteTransactions ["t1"; "t3"] w2) = Normal (Success tt) /\
  db (snd (bulkDeleteTransactions ["t1"; "t3"] w2)) = db w2.
Proof.
  intros w' w2.
  apply (bulkDelete_twice ["t1"; "t3"] Sample.world w' w2); reflexivity.
Defined.

(** ** What a successful bulk delete removed *)

(** X23.  After a successful [bulkDeleteTransactions] the transaction table is
    the old one without the caller's requested transactions: each of
    them is gone, everything else is there, in the old order. *)
Theorem bulkDelete_removes_the_resolved ids w w' :
  bulkDeleteTransactions ids w = (Normal (Success tt), w') ->
  exists u,
    caller w = Some u /\
    transactions (db w')
      = filter (fun t => negb (transaction_where ids (user_id u) t))
               (transactions (db w)) /\
    (forall t, In t (transactions (db w')) ->
               transaction_where ids (user_id u) t = false).
Proof.
  intros H.
  destruct (bulkDelete_outcome ids w) as [(e & He & _) | (_ & u & Hc & Ht)];
    rewrite H in *; simpl in *; [discriminate|].
  exists u. split; [exact Hc|]. split; [exact Ht|].
  intros t Hin. rewrite Ht in Hin. apply filter_In in Hin.
  destruct Hin as [_ Hin]. now apply negb_true_iff in Hin.
Qed.

Lemma bulkDelete_removes_the_resolved_witness :
  transactions (db (snd (bulkDeleteTransactions ["t1"; "t3"; "t4"]
                                                Sample.world)))
    = [Sample.t2; Sample.t4; Sample.t5] /\
  exists u,
    caller Sample.world = Some u /\
    forall t,
      In t (transactions (db (snd (bulkDeleteTransactions
                                     ["t1"; "t3"; "t4"] Sample.world)))) ->
      transaction_where ["t1"; "t3"; "t4"] (user_id u) t = false.
Proof.
  split; [reflexivity|].
  destruct (bulkDelete_removes_the_resolved ["t1"; "t3"; "t4"] Sample.world
              (snd (bulkDeleteTransactions ["t1"; "t3"; "t4"] Sample.world))
              eq_refl) as (u & Hc & _ & H).
  exists u. auto.
Defined.

(** Alice deletes t1, linked to X: her account Y and Bob's B are as
    before. *)
Lemma bulkDelete_leaves_other_accounts_witness :
  In Sample.Y (accounts (db (snd (bulkDeleteTransactions ["t1"; "t4"]
                                                         Sample.world)))).
Proof.
  apply (bulkDelete_leaves_other_accounts ["t1"; "t4"] Sample.world Sample.Y).
  - simpl. auto.
  - intros u t [= <-] Hin Hw.
    simpl in Hin.
    destruct Hin as [<- | [<- | [<- | [<- | [<- | []]]]]];
      try discriminate Hw; discriminate.
Defined.

(** Alice switches her default and opens an account: Bob's B is as
    before. *)
Lemma other_users_accounts_untouched_witness :
  In Sample.B (accounts (db (snd (updateDefaultAccount "Y" Sample.world)))) /\
  In Sample.B
     (accounts (db (snd (createAccount
                           (mkAccountData "trip" "SAVINGS" "1" (Some true))
                           Sample.world)))).
Proof.
  destruct (other_users_accounts_untouched Sample.world Sample.B) as [H1 H2].
  - simpl. auto.
  - intros u [= <-]. discriminate.
  - split; [apply H1 | apply H2].
Defined.

(** ** Numerals: what is printed is read back *)








































(** ** Balances after a successful bulk delete *)






(** ** When a bulk delete succeeds *)


